(** * sql_database: connection lifecycle and schema provisioning

    A shallow embedding of [src/sql_database.py].  The module talks to three
    outside parties: the MySQL server (through [mysql.connector]), the
    operator's terminal ([input] / [print]) and the clock ([sleep]).  Each
    of them is a parameter of the embedding; every call the module makes to
    one of them is recorded, in order, in a trace. *)

From Stdlib Require Import String Ascii List ZArith Bool Arith Lia.
From Equations Require Import Equations.
From Equations.Prop Require Import Logic.
Import ListNotations.
Open Scope string_scope.
Open Scope list_scope.

Set Implicit Arguments.
Set Warnings "-register-all".

(** ** SQL text sent by the module

    The statements are kept as syntax trees: one constructor per statement
    form that occurs in the module, with the interpolated name or the bound
    parameter as argument. *)

Module SQL.

Inductive sql_type := INT | FLOAT | VARCHAR (n : nat).

Record column := Column {
  col_name : string;
  col_type : sql_type;
  auto_increment : bool;
  primary_key : bool;
  unique : bool
}.

(** A FOREIGN KEY clause without ON DELETE has the server's default
    action, which rejects the deletion of a referenced row. *)
Inductive on_delete := NO_ACTION | CASCADE.

Record foreign_key := ForeignKey {
  fk_column : string;
  ref_table : string;
  ref_column : string;
  fk_on_delete : on_delete
}.

Record table_def := TableDef {
  table_name : string;
  columns : list column;
  foreign_keys : list foreign_key
}.

(** A FLOAT cell is kept as its 4-byte pattern; no arithmetic is done on
    it here. *)
Inductive value := NULL | Int (z : Z) | Str (s : string) | Float (bits : Z).

Inductive stmt :=
| SELECT_SCHEMA_NAME (name : string)
    (* SELECT SCHEMA_NAME FROM INFORMATION_SCHEMA.SCHEMATA WHERE SCHEMA_NAME = "name" *)
| DROP_DATABASE (name : string)
| CREATE_DATABASE (name : string)
| USE (name : string)
| CREATE_TABLE (def : table_def)
| INSERT_INTO (table : string) (cols : list string) (params : list value)
| DELETE_FROM (table : string) (id : Z).
    (* DELETE FROM table WHERE id = ...; never sent by this module *)

Definition row := list value.

End SQL.
Import SQL.

(** ** Python values and control flow *)

(** [mysql.connector.Error] (and its subclasses) with the message, the
    error number and [__context__], the exception that was being handled
    when this one was raised.  [EOFError] is what [input] raises on a
    closed terminal. *)
Inductive exn :=
| Error (msg : string) (errno : Z) (context : option exn)
| EOFError.

(** The connection object; [conn_attempt] is the attempt that opened it. *)
Record connection := Conn { conn_attempt : nat }.

Inductive connect_reply := Accepted | Refused (cause : exn).

(** The server side of a connection: what it answers to a statement and to
    a commit, and how its state changes. *)
Record Engine := {
  server : Type;
  run_stmt : stmt -> server -> (exn + list row) * server;
  run_commit : server -> option exn * server
}.

Inductive event :=
| EConnect (host user password : string) (database : option string)
| ESleep (seconds : nat)
| ECursor (db : connection)
| EExecute (s : stmt)
| EFetchone
| EPrint (text : string)
| EInput (prompt : string)
| ECommit (db : connection)
| EClose (db : connection).

(** How a block of statements ends: it falls through with a value, it
    executes [return], or it raises. *)
Inductive ctl (A : Type) :=
| Next (a : A)
| Return_
| Raise (e : exn).
Arguments Return_ {A}.
Arguments Raise {A} e.

Section Runtime.

Variable E : Engine.
Variable connector : nat -> connect_reply.

Record world := World {
  attempts : nat;               (* connection attempts made so far *)
  srv : server E;               (* state of the server *)
  unread : list row;            (* rows of the last result set not yet fetched *)
  stdin : list string;          (* lines the operator is going to type *)
  trace : list event            (* calls made so far, oldest first *)
}.

Definition M (A : Type) := world -> ctl A * world.

Definition ret {A} (a : A) : M A := fun w => (Next a, w).

Definition bind {A B} (m : M A) (k : A -> M B) : M B := fun w =>
  match m w with
  | (Next a, w1) => k a w1
  | (Return_, w1) => (Return_, w1)
  | (Raise e, w1) => (Raise e, w1)
  end.

Definition raise {A} (e : exn) : M A := fun w => (Raise e, w).
Definition return_ {A} : M A := fun w => (Return_, w).

Definition log (ev : event) (w : world) : world :=
  World (attempts w) (srv w) (unread w) (stdin w) (trace w ++ [ev]).

(** *** The calls into the outside world *)

Definition sleep (seconds : nat) : M unit := fun w =>
  (Next tt, log (ESleep seconds) w).

Definition print (text : string) : M unit := fun w =>
  (Next tt, log (EPrint text) w).

Definition input (prompt : string) : M string := fun w =>
  let w1 := log (EInput prompt) w in
  match stdin w1 with
  | [] => (Raise EOFError, w1)
  | line :: rest =>
      (Next line, World (attempts w1) (srv w1) (unread w1) rest (trace w1))
  end.

(** [mysql.connector.connect(host=..., user=..., password=..., database=...)] *)
Definition connect (host user password : string) (database : option string)
  : M connection := fun w =>
  let k := attempts w in
  let w1 := log (EConnect host user password database)
                (World (S k) (srv w) (unread w) (stdin w) (trace w)) in
  match connector k with
  | Accepted => (Next (Conn k), w1)
  | Refused cause => (Raise cause, w1)
  end.

Definition cursor (db : connection) : M unit := fun w =>
  (Next tt, log (ECursor db) w).

Definition execute (s : stmt) : M unit := fun w =>
  let w1 := log (EExecute s) w in
  match run_stmt E s (srv w1) with
  | (inr rows, v) =>
      (Next tt, World (attempts w1) v rows (stdin w1) (trace w1))
  | (inl e, v) =>
      (Raise e, World (attempts w1) v [] (stdin w1) (trace w1))
  end.

Definition fetchone : M (option row) := fun w =>
  let w1 := log EFetchone w in
  match unread w1 with
  | [] => (Next None, w1)
  | r :: rest =>
      (Next (Some r), World (attempts w1) (srv w1) rest (stdin w1) (trace w1))
  end.

Definition commit (db : connection) : M unit := fun w =>
  let w1 := log (ECommit db) w in
  match run_commit E (srv w1) with
  | (None, v) =>
      (Next tt, World (attempts w1) v (unread w1) (stdin w1) (trace w1))
  | (Some e, v) =>
      (Raise e, World (attempts w1) v (unread w1) (stdin w1) (trace w1))
  end.

Definition close (db : connection) (w : world) : world :=
  log (EClose db) w.

End Runtime.

Arguments ret {E A} a w.
Arguments raise {E A} e w.
Arguments return_ {E A} w.
Arguments fetchone {E} w.

Notation "x <- m ;; k" := (bind m (fun x => k))
  (at level 61, m at next level, right associativity).
Notation "m ;;; k" := (bind m (fun _ => k))
  (at level 61, right associativity).

(** ** The module *)

(** line 22 *)
Definition schema : string := "application_project_gaube".

Section ConnectToLocalhost.

Variable E : Engine.
Variable connector : nat -> connect_reply.

(** Lines 46-60, the [while True] loop of the handler.  [handled] is the
    exception the enclosing [except] clause (line 44) is handling: the
    inner handler of line 59 is left before line 48 can be reached, so
    an exception raised at line 48 has [handled], the failure of the
    first attempt, as its context.  The loop ends: [tries] only grows
    and line 47 stops it above 5. *)
Equations? retry (database : option string) (handled : exn) (tries : nat)
    (w : world E) : ctl connection * world E by wf (6 - tries) lt :=
  retry database handled tries w with lt_dec 5 tries := {
    | left _ =>
        raise (Error "Could not connect to database" (-1) (Some handled)) w
    | right _ =>
        let w1 := snd (sleep 60 w) in
        match connect connector "localhost" "root" "" database w1 with
        | (Next db, w2) => (Next db, w2)                      (* break *)
        | (Raise (Error _ _ _), w2) =>
            retry database handled (tries + 1) w2             (* tries += 1 *)
        | other => other
        end }.
Proof.
  do 6 (destruct tries as [|tries]; [simpl; lia|]).
  exfalso; lia.
Qed.

(** Lines 37-60: the value of [db] when the [try] block is left, and the
    exception in flight if it is left by one. *)
Definition establish (database : option string) : M E connection := fun w =>
  match connect connector "localhost" "root" "" database w with
  | (Raise (Error m n c), w1) => retry database (Error m n c) 0 w1
  | other => other
  end.

(** Lines 25-66 together with the [with] statement that uses the context
    manager: [body] is the block under [with ... as db]. *)
Definition connect_to_localhost {A} (database : option string)
    (body : connection -> M E A) : M E A := fun w =>
  let (got, w1) := establish database w in
  let db := match got with Next c => Some c | _ => None end in  (* line 35 *)
  let (r, w2) :=
    match got with
    | Next c => body c w1                                       (* line 62 *)
    | Return_ => (Return_, w1)
    | Raise e => (Raise e, w1)
    end in
  match db with                                                 (* line 64 *)
  | Some c => (r, close c w2)
  | None => (r, w2)
  end.

End ConnectToLocalhost.

(** ** The tables (lines 104-167) *)

Definition id_column : column := Column "id" INT true true false.
Definition plain (name : string) (t : sql_type) : column :=
  Column name t false false false.

Definition dataset : table_def :=
  TableDef "dataset"
    [ id_column; Column "student" (VARCHAR 5) false false true ]
    [].

Definition exam : table_def :=
  TableDef "exam" [ id_column; plain "term" (VARCHAR 10) ] [].

Definition hrv : table_def :=
  TableDef "hrv" [ id_column; plain "parameter" (VARCHAR 15) ] [].

Definition inter_beat_interval : table_def :=
  TableDef "inter_beat_interval"
    [ id_column; plain "student_id" INT; plain "term_id" INT;
      plain "ibi_value_id" INT; plain "ibi_value" INT; plain "timestamp" INT ]
    [ ForeignKey "student_id" "dataset" "id" CASCADE;
      ForeignKey "term_id" "exam" "id" NO_ACTION ].

Definition master_data : table_def :=
  TableDef "master_data"
    [ id_column; plain "student_id" INT; plain "term_id" INT;
      plain "grade" INT; plain "nni_mean" FLOAT; plain "sdnn" FLOAT;
      plain "number_of_ibi" INT; plain "duration_in_h" FLOAT ]
    [ ForeignKey "student_id" "dataset" "id" CASCADE;
      ForeignKey "term_id" "exam" "id" NO_ACTION ].

Definition window_values : table_def :=
  TableDef "window_values"
    [ id_column; plain "student_id" INT; plain "term_id" INT;
      plain "window_id" INT; plain "timestamp" INT; plain "parameter_id" INT;
      plain "hrv_value" FLOAT; plain "number_of_ibi" INT ]
    [ ForeignKey "student_id" "dataset" "id" CASCADE;
      ForeignKey "term_id" "exam" "id" NO_ACTION;
      ForeignKey "parameter_id" "hrv" "id" NO_ACTION ].

(** ** Strings *)

(** [str.lower] on the letters A-Z; the other characters stay. *)
Definition lower_ascii (c : ascii) : ascii :=
  let n := nat_of_ascii c in
  if andb (Nat.leb 65 n) (Nat.leb n 90) then ascii_of_nat (n + 32) else c.

Fixpoint lower (s : string) : string :=
  match s with
  | EmptyString => EmptyString
  | String c rest => String (lower_ascii c) (lower rest)
  end.

(** Truth value of what [fetchone] returns: [None] and the empty tuple are
    false. *)
Definition truthy (r : option row) : bool :=
  match r with
  | None | Some [] => false
  | Some (_ :: _) => true
  end.

Section CreateSchema.

Variable E : Engine.
Variable connector : nat -> connect_reply.

Fixpoint for_each {A} (xs : list A) (body : A -> M E unit) : M E unit :=
  match xs with
  | [] => ret tt
  | x :: rest => body x ;;; for_each rest body
  end.

(** Lines 88-99, the [while True] loop of the prompt: it falls through on
    [break], returns on line 96.  Each round reads one line, so the loop
    is defined by recursion on what is left to read. *)
Equations? resolve_conflict (w : world E) : ctl unit * world E
    by wf (length (stdin w)) lt :=
  resolve_conflict w with inspect (input "Do you want to delete it? (y/n): " w) := {
    | exist _ (Next user_input, w1) _ =>
        if lower user_input =? "y" then
          (execute (DROP_DATABASE schema) ;;;
           print ("Schema " ++ schema ++ " deleted successfully.")%string) w1  (* break *)
        else if lower user_input =? "n" then
          return_ w1
        else
          resolve_conflict (snd (print "invalid input.." w1))
    | exist _ (Return_, w1) _ => (Return_, w1)
    | exist _ (Raise e, w1) _ => (Raise e, w1) }.
Proof.
  unfold input in *; simpl in *.
  destruct (stdin w) as [|line rest]; [discriminate|].
  match goal with H : (_, _) = (_, _) |- _ => injection H as _ <- end.
  simpl; lia.
Qed.

(** Lines 69-175. *)
Definition create_schema (schema_name : string) : M E unit :=
  connect_to_localhost connector None (fun db =>
    cursor db ;;;
    execute (SELECT_SCHEMA_NAME schema) ;;;
    found <- fetchone ;;
    (if truthy found then
       print ("Schema " ++ schema ++ " already exists.")%string ;;;
       resolve_conflict
     else ret tt) ;;;
    execute (CREATE_DATABASE schema_name) ;;;
    execute (USE schema_name) ;;;
    execute (CREATE_TABLE dataset) ;;;
    execute (CREATE_TABLE exam) ;;;
    execute (CREATE_TABLE hrv) ;;;
    execute (CREATE_TABLE inter_beat_interval) ;;;
    execute (CREATE_TABLE master_data) ;;;
    execute (CREATE_TABLE window_values) ;;;
    for_each ["mid1"; "mid2"; "final"] (fun term_type =>
      execute (INSERT_INTO "exam" ["term"] [Str term_type])) ;;;
    for_each ["nni_mean"; "sdnn"] (fun parameter_type =>
      execute (INSERT_INTO "hrv" ["parameter"] [Str parameter_type])) ;;;
    commit db).

(** Lines 178-179. *)
Definition main : M E unit := create_schema schema.

End CreateSchema.

(** ** A reference server

    The part of a MySQL server the statements above rely on: a catalog of
    databases, the database selected by USE, tables with an AUTO_INCREMENT
    counter, and the checks that make a statement fail (with the server's
    error numbers).  It is one instance of [Engine]; the results that do
    not depend on what is stored are proved for every instance. *)

Module MySQL.

(** A stored row: the cells by column name. *)
Definition record := list (string * value).

Record table := Table {
  def : table_def;
  next_id : Z;                  (* the AUTO_INCREMENT counter *)
  records : list record
}.

Record database := Database {
  db_name : string;
  tables : list table
}.

Record state := State {
  catalog : list database;
  selected : option string
}.

Definition err (errno : Z) (msg : string) : exn := Error msg errno None.

Definition value_eqb (a b : value) : bool :=
  match a, b with
  | NULL, NULL => true
  | Int x, Int y => Z.eqb x y
  | Str x, Str y => String.eqb x y
  | Float x, Float y => Z.eqb x y
  | _, _ => false
  end.

Definition is_null (v : value) : bool :=
  match v with NULL => true | _ => false end.

Fixpoint cell (col : string) (r : record) : value :=
  match r with
  | [] => NULL
  | (c, v) :: rest => if String.eqb c col then v else cell col rest
  end.

Definition named (n : string) (d : database) : bool := String.eqb (db_name d) n.

Definition find_db (n : string) (cat : list database) : option database :=
  find (named n) cat.

Definition has_db (n : string) (cat : list database) : bool :=
  existsb (named n) cat.

Definition remove_db (n : string) (cat : list database) : list database :=
  filter (fun d => negb (named n d)) cat.

Fixpoint replace_db (d : database) (cat : list database) : list database :=
  match cat with
  | [] => []
  | d0 :: rest =>
      if named (db_name d) d0 then d :: rest else d0 :: replace_db d rest
  end.

Definition find_table (n : string) (ts : list table) : option table :=
  find (fun t => String.eqb (table_name (def t)) n) ts.

Fixpoint replace_table (t : table) (ts : list table) : list table :=
  match ts with
  | [] => []
  | t0 :: rest =>
      if String.eqb (table_name (def t0)) (table_name (def t))
      then t :: rest else t0 :: replace_table t rest
  end.

Definition has_column (c : string) (d : table_def) : bool :=
  existsb (fun k => String.eqb (col_name k) c) (columns d).

(** *** CREATE TABLE *)

(** The first problem with a FOREIGN KEY clause of a new table, if any:
    its own column, the referenced table and the referenced column have
    to exist. *)
Definition check_foreign_key (d : table_def) (ts : list table)
    (fk : foreign_key) : option exn :=
  if negb (has_column (fk_column fk) d) then
    Some (err 1072 "Key column doesn't exist in table")
  else
    match find_table (ref_table fk) ts with
    | None => Some (err 1824 "Failed to open the referenced table")
    | Some t =>
        if has_column (ref_column fk) (def t) then None
        else Some (err 3734 "Failed to add the foreign key constraint")
    end.

Fixpoint first_error {A} (check : A -> option exn) (xs : list A) : option exn :=
  match xs with
  | [] => None
  | x :: rest =>
      match check x with
      | Some e => Some e
      | None => first_error check rest
      end
  end.

Definition create_table (d : table_def) (ts : list table) : exn + list table :=
  match find_table (table_name d) ts with
  | Some _ => inl (err 1050 "Table already exists")
  | None =>
      match first_error (check_foreign_key d ts) (foreign_keys d) with
      | Some e => inl e
      | None => inr (ts ++ [Table d 1 []])
      end
  end.

(** *** INSERT *)

Fixpoint bindings (cols : list string) (params : list value) : option record :=
  match cols, params with
  | [], [] => Some []
  | c :: cols', v :: params' =>
      match bindings cols' params' with
      | Some r => Some ((c, v) :: r)
      | None => None
      end
  | _, _ => None
  end.

Definition fits (t : sql_type) (v : value) : bool :=
  match v, t with
  | NULL, _ => true
  | Int _, INT => true
  | Int _, FLOAT => true
  | Float _, FLOAT => true
  | Str s, VARCHAR n => Nat.leb (String.length s) n
  | _, _ => false
  end.

(** The cell stored for column [k]: the bound parameter, or the counter
    for an AUTO_INCREMENT column left out or bound to NULL. *)
Definition stored (given : record) (counter : Z) (k : column) : string * value :=
  let v := cell (col_name k) given in
  (col_name k, if andb (auto_increment k) (is_null v) then Int counter else v).

Definition check_cell (t : table) (r : record) (k : column) : option exn :=
  let v := cell (col_name k) r in
  if negb (fits (col_type k) v) then
    Some (err 1406 "Data too long or incorrect value for column")
  else if andb (orb (primary_key k) (unique k))
               (andb (negb (is_null v))
                     (existsb (fun r0 => value_eqb (cell (col_name k) r0) v)
                              (records t))) then
    Some (err 1062 "Duplicate entry")
  else None.

Definition check_reference (ts : list table) (r : record) (fk : foreign_key)
    : option exn :=
  let v := cell (fk_column fk) r in
  if is_null v then None
  else
    match find_table (ref_table fk) ts with
    | Some t =>
        if existsb (fun r0 => value_eqb (cell (ref_column fk) r0) v) (records t)
        then None
        else Some (err 1452 "Cannot add or update a child row")
    | None => Some (err 1452 "Cannot add or update a child row")
    end.

Definition bump (counter : Z) (r : record) (k : column) : Z :=
  match auto_increment k, cell (col_name k) r with
  | true, Int z => Z.max counter (z + 1)
  | _, _ => counter
  end.

Definition insert (name : string) (cols : list string) (params : list value)
    (ts : list table) : exn + list table :=
  match find_table name ts with
  | None => inl (err 1146 "Table doesn't exist")
  | Some t =>
      match bindings cols params with
      | None => inl (err 1136 "Column count doesn't match value count")
      | Some given =>
          if negb (forallb (fun c => has_column c (def t)) cols) then
            inl (err 1054 "Unknown column")
          else
            let r := map (stored given (next_id t)) (columns (def t)) in
            match first_error (check_cell t r) (columns (def t)) with
            | Some e => inl e
            | None =>
                match first_error (check_reference ts r) (foreign_keys (def t)) with
                | Some e => inl e
                | None =>
                    let counter := fold_left (fun n k => bump n r k)
                                             (columns (def t)) (next_id t) in
                    inr (replace_table (Table (def t) counter (records t ++ [r])) ts)
                end
            end
      end
  end.

(** *** DELETE

    Deleting rows of a table deletes, in every table with an ON DELETE
    CASCADE key to it, the rows that reference them, and so on; a
    referencing row under a key without that clause makes the statement
    fail.  The server gives up beyond 15 levels. *)

Definition max_cascade_depth : nat := 15.

(** Does [r], a row of a table with key [fk], reference one of [victims]? *)
Definition references (fk : foreign_key) (victims : list record) (r : record) : bool :=
  let v := cell (fk_column fk) r in
  andb (negb (is_null v))
       (existsb (fun p => value_eqb (cell (ref_column fk) p) v) victims).

(** The keys of the tables [ts] that point to table [name], each with the
    name of the table that carries it. *)
Definition keys_to (name : string) (ts : list table) : list (string * foreign_key) :=
  flat_map (fun t =>
              map (fun fk => (table_name (def t), fk))
                  (filter (fun fk => String.eqb (ref_table fk) name)
                          (foreign_keys (def t))))
           ts.

Fixpoint delete_where (depth : nat) (name : string) (doomed : record -> bool)
    (ts : list table) : exn + list table :=
  match find_table name ts with
  | None => inl (err 1146 "Table doesn't exist")
  | Some t =>
      let victims := filter doomed (records t) in
      let ts1 :=
        replace_table
          (Table (def t) (next_id t)
                 (filter (fun r => negb (doomed r)) (records t))) ts in
      match victims with
      | [] => inr ts
      | _ :: _ =>
          fold_left
            (fun acc (key : string * foreign_key) =>
               match acc with
               | inl e => inl e
               | inr ts2 =>
                   let (child, fk) := key in
                   match find_table child ts2 with
                   | None => inr ts2
                   | Some c =>
                       if existsb (references fk victims) (records c) then
                         match fk_on_delete fk, depth with
                         | NO_ACTION, _ =>
                             inl (err 1451 "Cannot delete or update a parent row")
                         | CASCADE, O =>
                             inl (err 3008 "Foreign key cascade delete/update exceeds max depth")
                         | CASCADE, S depth' =>
                             delete_where depth' child (references fk victims) ts2
                         end
                       else inr ts2
                   end
               end)
            (keys_to name ts) (inr ts1)
      end
  end.

Definition delete (name : string) (id : Z) (ts : list table) : exn + list table :=
  delete_where max_cascade_depth name
               (fun r => value_eqb (cell "id" r) (Int id)) ts.

(** *** Statements *)

(** A statement on the tables of the selected database. *)
Definition in_selected (f : list table -> exn + list table) (st : state)
    : (exn + list row) * state :=
  match selected st with
  | None => (inl (err 1046 "No database selected"), st)
  | Some n =>
      match find_db n (catalog st) with
      | None => (inl (err 1049 "Unknown database"), st)
      | Some d =>
          match f (tables d) with
          | inl e => (inl e, st)
          | inr ts =>
              (inr [], State (replace_db (Database n ts) (catalog st)) (selected st))
          end
      end
  end.

Definition run (s : stmt) (st : state) : (exn + list row) * state :=
  match s with
  | SELECT_SCHEMA_NAME n =>
      (inr (if has_db n (catalog st) then [[Str n]] else []), st)
  | DROP_DATABASE n =>
      if has_db n (catalog st) then
        (inr [], State (remove_db n (catalog st))
                       (match selected st with
                        | Some m => if String.eqb m n then None else Some m
                        | None => None
                        end))
      else (inl (err 1008 "Can't drop database; database doesn't exist"), st)
  | CREATE_DATABASE n =>
      if has_db n (catalog st) then
        (inl (err 1007 "Can't create database; database exists"), st)
      else (inr [], State (Database n [] :: catalog st) (selected st))
  | USE n =>
      if has_db n (catalog st) then (inr [], State (catalog st) (Some n))
      else (inl (err 1049 "Unknown database"), st)
  | CREATE_TABLE d => in_selected (create_table d) st
  | INSERT_INTO t cols params => in_selected (insert t cols params) st
  | DELETE_FROM t id => in_selected (delete t id) st
  end.

(** COMMIT has nothing to do in this model: the effect of a statement is
    in the state as soon as the statement has run. *)
Definition engine : Engine :=
  {| server := state; run_stmt := run; run_commit := fun st => (None, st) |}.

End MySQL.

(** * Vocabulary of the properties *)

(** ** Connecting *)

Definition dial (database : option string) : event :=
  EConnect "localhost" "root" "" database.

(** The calls made by [n] retries: each waits 60 seconds, then connects. *)
Definition retries (database : option string) (n : nat) : list event :=
  concat (repeat [ESleep 60; dial database] n).

(** The world after [n] connection attempts that began in [w]. *)
Definition after_attempts {E} (w : world E) (database : option string) (n : nat)
  : world E :=
  World E (attempts w + n) (srv w) (unread w) (stdin w)
        (trace w ++
         match n with
         | O => []
         | S r => dial database :: retries database r
         end).

Definition refuses (connector : nat -> connect_reply) (k : nat) : Prop :=
  exists msg errno context, connector k = Refused (Error msg errno context).

(** The connector fails the first [N] attempts and succeeds on the next. *)
Definition fails_then_succeeds (connector : nat -> connect_reply) (N : nat) : Prop :=
  (forall k, k < N -> refuses connector k) /\ connector N = Accepted.

(** A connector that refuses [N] times; the refusals are numbered so that
    they can be told apart. *)
Definition refusal (k : nat) : exn :=
  Error "Can't connect to MySQL server on 'localhost:3306'" (Z.of_nat k) None.

Definition flaky (N : nat) : nat -> connect_reply :=
  fun k => if Nat.ltb k N then Refused (refusal k) else Accepted.

Definition is_close (ev : event) : bool :=
  match ev with EClose _ => true | _ => false end.

(** How many times [close] has been called. *)
Definition closes (t : list event) : nat := length (filter is_close t).

(** A world in which nothing has happened yet, on the reference server
    with catalog [cat]; the operator is going to type [lines]. *)
Definition fresh (cat : list MySQL.database) (lines : list string)
  : world MySQL.engine :=
  World MySQL.engine 0 (MySQL.State cat None) [] lines [].

(** ** Provisioning *)

Definition prompt : string := "Do you want to delete it? (y/n): ".
Definition exists_message : string := "Schema " ++ schema ++ " already exists.".
Definition deleted_message : string := "Schema " ++ schema ++ " deleted successfully.".

(** The statements of lines 101-173 in the order of the program text;
    [schema_name] is the argument of [create_schema]. *)
Definition script (schema_name : string) : list stmt :=
  [ CREATE_DATABASE schema_name;
    USE schema_name;
    CREATE_TABLE dataset;
    CREATE_TABLE exam;
    CREATE_TABLE hrv;
    CREATE_TABLE inter_beat_interval;
    CREATE_TABLE master_data;
    CREATE_TABLE window_values;
    INSERT_INTO "exam" ["term"] [Str "mid1"];
    INSERT_INTO "exam" ["term"] [Str "mid2"];
    INSERT_INTO "exam" ["term"] [Str "final"];
    INSERT_INTO "hrv" ["parameter"] [Str "nni_mean"];
    INSERT_INTO "hrv" ["parameter"] [Str "sdnn"] ].

Section Phases.

Variable E : Engine.

(** Lines 83-99: the existence check and the operator's decision. *)
Definition check_existing (db : connection) : M E unit :=
  cursor db ;;;
  execute (SELECT_SCHEMA_NAME schema) ;;;
  found <- fetchone ;;
  if truthy found then print exists_message ;;; resolve_conflict (E := E)
  else ret tt.

(** Lines 101-175: the statements of [script], then the commit. *)
Definition provision (schema_name : string) (db : connection) : M E unit :=
  for_each (script schema_name) (execute (E := E)) ;;; commit db.

(** What the server answers to a list of statements sent one after the
    other, up to the first one it refuses: the refusal, if any, and the
    state it is left in. *)
Fixpoint replies (stmts : list stmt) (st : server E) : option exn * server E :=
  match stmts with
  | [] => (None, st)
  | s :: rest =>
      match run_stmt E s st with
      | (inl e, st1) => (Some e, st1)
      | (inr _, st1) => replies rest st1
      end
  end.

(** The number of statements of the list the server gets to see. *)
Fixpoint sent (stmts : list stmt) (st : server E) : nat :=
  match stmts with
  | [] => 0
  | s :: rest =>
      match run_stmt E s st with
      | (inl _, _) => 1
      | (inr _, st1) => S (sent rest st1)
      end
  end.

(** Is a schema reported by the existence check in state [st]? *)
Definition found (st : server E) : bool :=
  match fst (run_stmt E (SELECT_SCHEMA_NAME schema) st) with
  | inr rows => truthy (hd_error rows)
  | inl _ => false
  end.

End Phases.

(** The statements executed, the tables created and the number of commits
    recorded in a trace. *)
Definition executed (t : list event) : list stmt :=
  flat_map (fun ev => match ev with EExecute s => [s] | _ => [] end) t.

Definition created (t : list event) : list table_def :=
  flat_map (fun s => match s with CREATE_TABLE d => [d] | _ => [] end) (executed t).

Definition is_commit (ev : event) : bool :=
  match ev with ECommit _ => true | _ => false end.

Definition commits (t : list event) : nat := length (filter is_commit t).

(** The tables in the order of the program text. *)
Definition tables_in_order : list table_def :=
  [dataset; exam; hrv; inter_beat_interval; master_data; window_values].

(** A line the prompt does not accept. *)
Definition rejected (line : string) : Prop :=
  lower line <> "y" /\ lower line <> "n".

(** What the prompt loop does with a run of rejected lines. *)
Definition reprompts (bad : list string) : list event :=
  flat_map (fun _ => [EInput prompt; EPrint "invalid input.."]) bad.

(** The world when the line after the rejected lines [bad] has been read
    and [rest] is still to come. *)
Definition answered {E} (w : world E) (bad rest : list string) : world E :=
  World E (attempts w) (srv w) (unread w) rest
        (trace w ++ reprompts bad ++ [EInput prompt]).

(** The calls the check phase can make on connection [db]. *)
Definition prologue_event (db : connection) (ev : event) : Prop :=
  match ev with
  | ECursor c => c = db
  | EFetchone | EInput _ | EPrint _ => True
  | EExecute s => s = SELECT_SCHEMA_NAME schema \/ s = DROP_DATABASE schema
  | _ => False
  end.

(** The world in which the operator has given an answer: the check found
    a row, the lines [bad] were rejected, [rest] is still to be read. *)
Definition at_answer {E} (db : connection) (w : world E) (st : server E)
    (rows : list row) (bad rest : list string) : world E :=
  World E (attempts w) st (tl rows) rest
        (trace w ++
         [ECursor db; EExecute (SELECT_SCHEMA_NAME schema); EFetchone;
          EPrint exists_message] ++ reprompts bad ++ [EInput prompt]).

(** ** Contents of the reference server *)

(** The tables of a database right after provisioning: six tables, three
    rows in [exam], two in [hrv], none elsewhere. *)
Definition provisioned : list MySQL.table :=
  [ MySQL.Table dataset 1 [];
    MySQL.Table exam 4
      [ [("id", Int 1); ("term", Str "mid1")];
        [("id", Int 2); ("term", Str "mid2")];
        [("id", Int 3); ("term", Str "final")] ];
    MySQL.Table hrv 3
      [ [("id", Int 1); ("parameter", Str "nni_mean")];
        [("id", Int 2); ("parameter", Str "sdnn")] ];
    MySQL.Table inter_beat_interval 1 [];
    MySQL.Table master_data 1 [];
    MySQL.Table window_values 1 [] ].

(** The rows of table [name], if there is such a table. *)
Definition rows_of (name : string) (ts : list MySQL.table) : list MySQL.record :=
  match MySQL.find_table name ts with
  | Some t => MySQL.records t
  | None => []
  end.

(** The calls made while connecting. *)
Definition connecting_event (ev : event) : Prop :=
  match ev with
  | EConnect _ _ _ _ | ESleep _ => True
  | _ => False
  end.

(** The column of table [name] that says to which student a row belongs:
    the key of [dataset] itself, the foreign key to it in the three tables
    that have one. *)
Definition student_column (name : string) : option string :=
  if String.eqb name "dataset" then Some "id"
  else if existsb (String.eqb name)
                  ["inter_beat_interval"; "master_data"; "window_values"]
       then Some "student_id"
       else None.

(** Table [t] without the rows of student [sid]. *)
Definition purge (sid : Z) (t : MySQL.table) : MySQL.table :=
  match student_column (table_name (MySQL.def t)) with
  | Some c =>
      MySQL.Table (MySQL.def t) (MySQL.next_id t)
        (filter (fun r => negb (MySQL.value_eqb (MySQL.cell c r) (Int sid)))
                (MySQL.records t))
  | None => t
  end.

(** A provisioned database into which two students and some of their data
    have been loaded. *)
Definition students : list MySQL.table :=
  [ MySQL.Table dataset 3
      [ [("id", Int 1); ("student", Str "S1")];
        [("id", Int 2); ("student", Str "S2")] ];
    MySQL.Table exam 4
      [ [("id", Int 1); ("term", Str "mid1")];
        [("id", Int 2); ("term", Str "mid2")];
        [("id", Int 3); ("term", Str "final")] ];
    MySQL.Table hrv 3
      [ [("id", Int 1); ("parameter", Str "nni_mean")];
        [("id", Int 2); ("parameter", Str "sdnn")] ];
    MySQL.Table inter_beat_interval 4
      [ [("id", Int 1); ("student_id", Int 1); ("term_id", Int 1);
         ("ibi_value_id", Int 0); ("ibi_value", Int 812); ("timestamp", Int 0)];
        [("id", Int 2); ("student_id", Int 2); ("term_id", Int 1);
         ("ibi_value_id", Int 0); ("ibi_value", Int 790); ("timestamp", Int 0)];
        [("id", Int 3); ("student_id", Int 1); ("term_id", Int 2);
         ("ibi_value_id", Int 0); ("ibi_value", Int 655); ("timestamp", Int 0)] ];
    MySQL.Table master_data 3
      [ [("id", Int 1); ("student_id", Int 1); ("term_id", Int 1);
         ("grade", Int 78); ("nni_mean", NULL); ("sdnn", NULL);
         ("number_of_ibi", Int 2); ("duration_in_h", NULL)];
        [("id", Int 2); ("student_id", Int 2); ("term_id", Int 1);
         ("grade", Int 82); ("nni_mean", NULL); ("sdnn", NULL);
         ("number_of_ibi", Int 1); ("duration_in_h", NULL)] ];
    MySQL.Table window_values 1 [] ].

(** ** Proof automation *)

(** Facts about traces are collected in [trace_db], rewriting rules in
    [trace_rw]. *)
Create HintDb trace_db.
Create Rewrite HintDb trace_rw.

(** Two results are the same when the worlds differ by arithmetic on the
    attempt counter and by the bracketing of the trace only. *)
Ltac same_world :=
  f_equal;
  try (apply f_equal5; try reflexivity);
  try solve [repeat f_equal; lia];
  autorewrite with trace_rw; rewrite <- ?app_assoc; try reflexivity.

(** The side conditions on the events of the check phase. *)
Ltac trace_goal :=
  first
    [ reflexivity
    | discriminate
    | now rewrite <- ?app_assoc
    | now autorewrite with trace_rw
    | left; now autorewrite with trace_rw
    | right; now autorewrite with trace_rw
    | apply Forall_app; split;
      [ auto with trace_db | repeat constructor; simpl; auto ] ].

Ltac trace_goals :=
  repeat split; intros; try discriminate; repeat split;
  try solve [trace_goal].

(** A server whose user may not insert; otherwise the reference server. *)
Definition insert_denied : Engine :=
  {| server := MySQL.state;
     run_stmt := fun s st =>
       match s with
       | INSERT_INTO _ _ _ =>
           (inl (MySQL.err 1142 "INSERT command denied to user"), st)
       | _ => MySQL.run s st
       end;
     run_commit := fun st => (None, st) |}.

(** ** Cost of connecting *)

Definition is_connect (ev : event) : bool :=
  match ev with EConnect _ _ _ _ => true | _ => false end.

(** The number of connection attempts and the seconds slept recorded in a
    trace. *)
Definition connects (t : list event) : nat := length (filter is_connect t).

Fixpoint slept (t : list event) : nat :=
  match t with
  | [] => 0
  | ESleep seconds :: rest => seconds + slept rest
  | _ :: rest => slept rest
  end.

(** ** Replacing on the reference server *)

(** The state of the reference server after DROP DATABASE [schema]. *)
Definition dropped (st : MySQL.state) : MySQL.state :=
  MySQL.State (MySQL.remove_db schema (MySQL.catalog st))
    (match MySQL.selected st with
     | Some m => if String.eqb m schema then None else Some m
     | None => None
     end).

(** The world in which the operator's yes has been carried out. *)
Definition after_drop (db : connection) (w : world MySQL.engine)
    (bad rest : list string) : world MySQL.engine :=
  World MySQL.engine (attempts w) (dropped (srv w)) [] rest
        (trace w ++
         [ECursor db; EExecute (SELECT_SCHEMA_NAME schema); EFetchone;
          EPrint exists_message] ++ reprompts bad ++
         [EInput prompt; EExecute (DROP_DATABASE schema); EPrint deleted_message]).

(** A server whose user may not drop databases; otherwise the reference
    server. *)
Definition drop_denied : Engine :=
  {| server := MySQL.state;
     run_stmt := fun s st =>
       match s with
       | DROP_DATABASE _ =>
           (inl (MySQL.err 1044 "Access denied for user to database"), st)
       | _ => MySQL.run s st
       end;
     run_commit := fun st => (None, st) |}.

(** * tests/test_student.py *)

Module TestStudent.

(** A dict with string keys: its items in insertion order, no key twice. *)
Definition dict (V : Type) := list (string * V).

Inductive lookup_error := IndexError | KeyError (key : string).

(** [l[i]] on a list *)
Definition item {A} (l : list A) (i : nat) : lookup_error + A :=
  match nth_error l i with
  | Some x => inr x
  | None => inl IndexError
  end.

(** [d[k]] on a dict *)
Fixpoint get {V} (d : dict V) (k : string) : lookup_error + V :=
  match d with
  | [] => inl (KeyError k)
  | (k0, v) :: rest => if String.eqb k0 k then inr v else get rest k
  end.

(** [[key for key in d]] *)
Definition keys {V} (d : dict V) : list string := map fst d.

Definition and_then {A B} (m : lookup_error + A) (k : A -> lookup_error + B)
  : lookup_error + B :=
  match m with
  | inl e => inl e
  | inr a => k a
  end.

(** [all_grades[term_keys[i]][student_id]] *)
Definition grade_in_term {G} (all_grades : dict (dict G)) (term_keys : list string)
    (i : nat) (student_id : string) : lookup_error + G :=
  and_then (item term_keys i) (fun key =>
  and_then (get all_grades key) (fun term =>
  get term student_id)).

(** Lines 33-47, [personal_grades]; [all_grades] is the class attribute of
    line 27.  The three components of the tuple are evaluated from left to
    right. *)
Definition personal_grades {G} (all_grades : dict (dict G)) (student_id : string)
  : lookup_error + (G * G * G) :=
  let term_keys := keys all_grades in
  and_then (grade_in_term all_grades term_keys 0 student_id) (fun g0 =>
  and_then (grade_in_term all_grades term_keys 1 student_id) (fun g1 =>
  and_then (grade_in_term all_grades term_keys 2 student_id) (fun g2 =>
  inr (g0, g1, g2)))).

(** Grades that agree with what the tests of the file expect. *)
Definition sample : dict (dict Z) :=
  [ ("mid1", [("S1", 78%Z); ("S7", 61%Z)]);
    ("mid2", [("S1", 82%Z); ("S5", 77%Z); ("S7", 33%Z)]);
    ("final", [("S1", 182%Z); ("S10", 116%Z)]) ].

End TestStudent.

(** * The connection manager *)

Section ConnectionFacts.

Variable E : Engine.
Variable connector : nat -> connect_reply.

Lemma retry_step database handled tries (w : world E) :
  retry connector database handled tries w =
  if lt_dec 5 tries then
    raise (Error "Could not connect to database" (-1) (Some handled)) w
  else
    match connect connector "localhost" "root" "" database (snd (sleep 60 w)) with
    | (Next db, w2) => (Next db, w2)
    | (Raise (Error _ _ _), w2) => retry connector database handled (tries + 1) w2
    | other => other
    end.
Proof.
  simp retry. destruct (lt_dec 5 tries); simpl; [reflexivity|].
  destruct (connect _ _ _ _ _ _) as [[db| |[m n0 c|]] w2]; reflexivity.
Qed.

Lemma world_eq (a a' : nat) (s : server E) u i (t t' : list event) :
  a = a' -> t = t' -> World E a s u i t = World E a' s u i t'.
Proof. intros; subst; reflexivity. Qed.

Lemma retries_succ database n :
  retries database (S n) = [ESleep 60; dial database] ++ retries database n.
Proof. reflexivity. Qed.

#[local] Hint Rewrite retries_succ : trace_rw.

(** The loop entered with [tries] gives up after [6 - tries] refusals. *)
Lemma retry_refused database handled d : forall tries (w : world E),
  tries + d = 6 ->
  (forall i, i < d -> refuses connector (attempts w + i)) ->
  retry connector database handled tries w =
  (Raise (Error "Could not connect to database" (-1) (Some handled)),
   World E (attempts w + d) (srv w) (unread w) (stdin w)
         (trace w ++ retries database d)).
Proof.
  induction d as [|d IH]; intros tries w Hsum Hfail; rewrite retry_step.
  - destruct (lt_dec 5 tries); [|lia]. unfold raise. f_equal.
    destruct w; simpl. apply world_eq; [lia | now rewrite app_nil_r].
  - destruct (lt_dec 5 tries); [lia|].
    destruct (Hfail 0) as (m & n0 & c & Hc); [lia|].
    rewrite Nat.add_0_r in Hc.
    unfold connect, sleep; simpl. rewrite Hc.
    rewrite IH; simpl; [| lia |].
    + same_world.
    + intros i Hi. simpl. rewrite <- Nat.add_succ_r. apply Hfail; lia.
Qed.

(** The loop entered with [tries] connects on its retry number [d + 1]
    when that one is within the budget. *)
Lemma retry_accepted database handled d : forall tries (w : world E),
  tries + d <= 5 ->
  (forall i, i < d -> refuses connector (attempts w + i)) ->
  connector (attempts w + d) = Accepted ->
  retry connector database handled tries w =
  (Next (Conn (attempts w + d)),
   World E (attempts w + S d) (srv w) (unread w) (stdin w)
         (trace w ++ retries database (S d))).
Proof.
  induction d as [|d IH]; intros tries w Hsum Hfail Hok; rewrite retry_step;
    (destruct (lt_dec 5 tries); [lia|]).
  - rewrite Nat.add_0_r in Hok. unfold connect, sleep; simpl. rewrite Hok. unfold log; simpl.
    same_world.
  - destruct (Hfail 0) as (m & n0 & c & Hc); [lia|].
    rewrite Nat.add_0_r in Hc.
    unfold connect, sleep; simpl. rewrite Hc.
    rewrite IH; simpl.
    + rewrite (retries_succ database (S d)). same_world.
    + lia.
    + intros i Hi. simpl. rewrite <- Nat.add_succ_r. apply Hfail; lia.
    + simpl. rewrite <- Nat.add_succ_r. exact Hok.
Qed.

(** A connection is opened by the first attempt or by one of six retries. *)
Lemma establish_accepted database N (w : world E) :
  attempts w = 0 -> fails_then_succeeds connector N -> N <= 6 ->
  establish connector database w =
  (Next (Conn N), after_attempts w database (S N)).
Proof.
  intros H0 [Hfail Hok] HN. unfold establish, after_attempts.
  destruct N as [|N].
  - unfold connect. rewrite H0, Hok. unfold log; simpl. same_world.
  - destruct (Hfail 0) as (m & n0 & c & Hc); [lia|].
    unfold connect. rewrite H0, Hc.
    rewrite (retry_accepted database (Error m n0 c) (d := N)); simpl; try lia.
    + same_world.
    + intros i Hi. apply Hfail; lia.
    + exact Hok.
Qed.

(** After seven refusals in a row the manager gives up; the error has
    the first refusal as context. *)
Lemma establish_refused database first (w : world E) :
  attempts w = 0 ->
  (forall k, k < 7 -> refuses connector k) ->
  connector 0 = Refused first ->
  establish connector database w =
  (Raise (Error "Could not connect to database" (-1) (Some first)),
   after_attempts w database 7).
Proof.
  intros H0 Hfail Hfirst. unfold establish, after_attempts.
  destruct (Hfail 0) as (m & n0 & c & Hc); [lia|].
  assert (first = Error m n0 c) as -> by congruence.
  unfold connect. rewrite H0, Hc.
  rewrite (retry_refused database (Error m n0 c) (d := 6)); simpl; try lia.
  - same_world.
  - intros i Hi. apply Hfail; lia.
Qed.

(** While connecting, nothing is closed, and only the attempt counter
    and the trace change. *)
Lemma retry_frame database handled tries : forall (w : world E),
  let r := retry connector database handled tries w in
  srv (snd r) = srv w /\ stdin (snd r) = stdin w /\ unread (snd r) = unread w /\
  closes (trace (snd r)) = closes (trace w) /\
  fst r <> Return_.
Proof.
  remember (6 - tries) as d eqn:Hd. revert tries Hd.
  induction d as [d IH] using lt_wf_ind. intros tries Hd w.
  cbv zeta. rewrite retry_step.
  destruct (lt_dec 5 tries); simpl; [repeat split; discriminate|].
  unfold connect; simpl.
  destruct (connector (attempts w)) as [|[m n0 c|]]; simpl.
  - unfold closes. rewrite !filter_app, !length_app; simpl.
    repeat split; try lia; discriminate.
  - match goal with |- context [retry _ _ _ _ ?w2] =>
      destruct (IH (6 - (tries + 1)) ltac:(lia) (tries + 1) eq_refl w2)
        as (Hs & Hi & Hu & Hc & Hr)
    end.
    simpl in *. rewrite Hs, Hi, Hu, Hc.
    unfold closes. rewrite !filter_app, !length_app; simpl.
    repeat split; try lia; assumption.
  - unfold closes. rewrite !filter_app, !length_app; simpl.
    repeat split; try lia; discriminate.
Qed.

Lemma establish_frame database (w : world E) :
  let r := establish connector database w in
  srv (snd r) = srv w /\ stdin (snd r) = stdin w /\ unread (snd r) = unread w /\
  closes (trace (snd r)) = closes (trace w) /\
  fst r <> Return_.
Proof.
  cbv zeta. unfold establish, connect.
  destruct (connector (attempts w)) as [|[m n0 c|]]; simpl.
  - unfold closes. rewrite !filter_app, !length_app; simpl.
    repeat split; try lia; discriminate.
  - match goal with |- context [retry _ ?db ?h ?t ?w2] =>
      destruct (retry_frame db h t w2) as (Hs & Hi & Hu & Hc & Hr)
    end.
    simpl in *. rewrite Hs, Hi, Hu, Hc.
    unfold closes. rewrite !filter_app, !length_app; simpl.
    repeat split; try lia; assumption.
  - unfold closes. rewrite !filter_app, !length_app; simpl.
    repeat split; try lia; discriminate.
Qed.

End ConnectionFacts.

Lemma flaky_fails_then_succeeds N : fails_then_succeeds (flaky N) N.
Proof.
  split.
  - intros k Hk. unfold refuses, flaky, refusal.
    apply Nat.ltb_lt in Hk. rewrite Hk. eauto.
  - unfold flaky. now rewrite Nat.ltb_irrefl.
Qed.

(** * Provisioning: the phases of [create_schema] *)

Section MonadFacts.

Variable E : Engine.

Lemma connect_to_localhost_ext connector database A
    (body body' : connection -> M E A) (w : world E) :
  (forall db w1, body db w1 = body' db w1) ->
  connect_to_localhost connector database body w =
  connect_to_localhost connector database body' w.
Proof.
  intros Hext. unfold connect_to_localhost.
  destruct (establish connector database w) as [[db| |e] w1];
    rewrite ?Hext; reflexivity.
Qed.

Lemma bind_assoc A B C (m : M E A) (k : A -> M E B) (h : B -> M E C) w :
  bind (bind m k) h w = bind m (fun a => bind (k a) h) w.
Proof. unfold bind. destruct (m w) as [[a| |e] w1]; reflexivity. Qed.

Lemma bind_ext A B (m : M E A) (k k' : A -> M E B) w :
  (forall a w1, k a w1 = k' a w1) -> bind m k w = bind m k' w.
Proof.
  intros Hext. unfold bind. destruct (m w) as [[a| |e] w1];
    rewrite ?Hext; reflexivity.
Qed.

End MonadFacts.

Section CreateSchemaFacts.

Variable E : Engine.
Variable connector : nat -> connect_reply.

(** [create_schema] is the connection manager around the two phases. *)
Lemma create_schema_phases schema_name (w : world E) :
  create_schema connector schema_name w =
  connect_to_localhost connector None
    (fun db => check_existing db ;;; provision schema_name db) w.
Proof.
  unfold create_schema. apply connect_to_localhost_ext. intros db w1.
  unfold check_existing. symmetry.
  rewrite bind_assoc. apply bind_ext. intros _ w2.
  rewrite bind_assoc. apply bind_ext. intros _ w3.
  rewrite bind_assoc. apply bind_ext. intros row w4.
  apply bind_ext. intros _ w5.
  unfold provision, script, bind; simpl. unfold bind, ret.
  repeat match goal with
         | |- context [execute ?s ?w] =>
             destruct (execute s w) as [[[]| |?] ?]; try reflexivity
         end.
Qed.

End CreateSchemaFacts.

(** * The prompt loop *)

Lemma lower_is_y (line : string) : lower line = "y" <-> line = "y" \/ line = "Y".
Proof.
  split.
  - destruct line as [|c [|c' rest]]; simpl; try discriminate.
    intros H. injection H as H.
    destruct c as [[] [] [] [] [] [] [] []]; vm_compute in H; try discriminate;
      auto.
  - intros [-> | ->]; reflexivity.
Qed.

Lemma lower_is_n (line : string) : lower line = "n" <-> line = "n" \/ line = "N".
Proof.
  split.
  - destruct line as [|c [|c' rest]]; simpl; try discriminate.
    intros H. injection H as H.
    destruct c as [[] [] [] [] [] [] [] []]; vm_compute in H; try discriminate;
      auto.
  - intros [-> | ->]; reflexivity.
Qed.

Lemma rejected_eqb (line : string) :
  rejected line <-> (lower line =? "y")%string = false /\ (lower line =? "n")%string = false.
Proof. unfold rejected. rewrite !String.eqb_neq. tauto. Qed.

Lemma rejected_dec (line : string) : {rejected line} + {~ rejected line}.
Proof.
  unfold rejected.
  destruct (string_dec (lower line) "y"), (string_dec (lower line) "n"); tauto.
Qed.

(** Every sequence of lines is a run of rejected lines followed by nothing
    or by an accepted line and the rest. *)
Lemma split_at_answer (lines : list string) :
  exists bad rest,
    lines = bad ++ rest /\ Forall rejected bad /\
    (rest = [] \/ exists a rest', rest = a :: rest' /\ ~ rejected a).
Proof.
  induction lines as [|l lines (bad & rest & -> & Hbad & Hrest)].
  - exists [], []. auto.
  - destruct (rejected_dec l) as [Hl|Hl].
    + exists (l :: bad), rest. auto.
    + exists [], (l :: bad ++ rest). repeat split; eauto.
Qed.

Section LoopFacts.

Variable E : Engine.

Lemma resolve_conflict_step (w : world E) :
  resolve_conflict w =
  match input prompt w with
  | (Next user_input, w1) =>
      if (lower user_input =? "y")%string then
        (execute (DROP_DATABASE schema) ;;; print deleted_message) w1
      else if (lower user_input =? "n")%string then return_ w1
      else resolve_conflict (snd (print "invalid input.." w1))
  | (Return_, w1) => (Return_, w1)
  | (Raise e, w1) => (Raise e, w1)
  end.
Proof.
  rewrite resolve_conflict_equation_1.
  generalize (inspect (input "Do you want to delete it? (y/n): " w)).
  intros [[[u| |e] w1] H]; simpl; unfold prompt; rewrite H; reflexivity.
Qed.

(** A rejected line is answered by the message and a new round of the
    loop; nothing else changes. *)
Lemma resolve_conflict_rejected (bad : list string) :
  forall (w : world E) (more : list string),
    stdin w = bad ++ more -> Forall rejected bad ->
    resolve_conflict w =
    resolve_conflict
      (World E (attempts w) (srv w) (unread w) more (trace w ++ reprompts bad)).
Proof.
  induction bad as [|l bad IH]; intros w more Hin Hbad.
  - simpl in *. unfold reprompts; simpl. rewrite app_nil_r.
    destruct w; simpl in *; subst; reflexivity.
  - inversion Hbad as [|? ? Hl Hbad']; subst.
    apply rejected_eqb in Hl as [Hy Hn].
    rewrite resolve_conflict_step. unfold input; simpl. rewrite Hin; simpl.
    rewrite Hy, Hn.
    rewrite (IH _ more); simpl; [|reflexivity|assumption].
    unfold reprompts; simpl. rewrite <- !app_assoc. reflexivity.
Qed.

Lemma resolve_conflict_n (w : world E) (a : string) (rest : list string) :
  stdin w = a :: rest -> lower a = "n" ->
  resolve_conflict w = (Return_, answered w [] rest).
Proof.
  intros Hin Ha. rewrite resolve_conflict_step. unfold input; simpl.
  rewrite Hin, Ha; simpl. reflexivity.
Qed.

Lemma resolve_conflict_y (w : world E) (a : string) (rest : list string) :
  stdin w = a :: rest -> lower a = "y" ->
  resolve_conflict w =
  (execute (DROP_DATABASE schema) ;;; print deleted_message) (answered w [] rest).
Proof.
  intros Hin Ha. rewrite resolve_conflict_step. unfold input; simpl.
  rewrite Hin, Ha; simpl. reflexivity.
Qed.

Lemma resolve_conflict_eof (w : world E) :
  stdin w = [] ->
  resolve_conflict w = (Raise EOFError, answered w [] []).
Proof.
  intros Hin. rewrite resolve_conflict_step. unfold input; simpl.
  rewrite Hin. unfold answered, log. rewrite Hin. reflexivity.
Qed.

Lemma answered_after (w : world E) (bad more rest : list string) :
  answered (World E (attempts w) (srv w) (unread w) more (trace w ++ reprompts bad))
           [] rest
  = answered w bad rest.
Proof. unfold answered; simpl. rewrite <- app_assoc. reflexivity. Qed.

End LoopFacts.

(** * The statements of the provisioning phase *)

Section ScriptFacts.

Variable E : Engine.

Lemma sent_all (stmts : list stmt) : forall st : server E,
  fst (replies E stmts st) = None -> sent E stmts st = length stmts.
Proof.
  induction stmts as [|s stmts IH]; intros st; simpl; [reflexivity|].
  destruct (run_stmt E s st) as [[e|rows] st1]; simpl; [discriminate|].
  intros H. rewrite IH; auto.
Qed.

Lemma sent_positive (s : stmt) (stmts : list stmt) (st : server E) :
  1 <= sent E (s :: stmts) st.
Proof. simpl. destruct (run_stmt E s st) as [[e|rows] st1]; lia. Qed.

Lemma execute_step (s : stmt) (w : world E) :
  execute s w =
  match run_stmt E s (srv w) with
  | (inr rows, st) =>
      (Next tt, World E (attempts w) st rows (stdin w) (trace w ++ [EExecute s]))
  | (inl e, st) =>
      (Raise e, World E (attempts w) st [] (stdin w) (trace w ++ [EExecute s]))
  end.
Proof. reflexivity. Qed.

(** Sending a list of statements one by one stops at the first refusal,
    which is raised as it is. *)
Lemma run_script_spec (stmts : list stmt) : forall w : world E,
  let r := for_each stmts (execute (E := E)) w in
  fst r = match fst (replies E stmts (srv w)) with
          | None => Next tt
          | Some e => Raise e
          end /\
  attempts (snd r) = attempts w /\
  srv (snd r) = snd (replies E stmts (srv w)) /\
  stdin (snd r) = stdin w /\
  trace (snd r) =
    trace w ++ map EExecute (firstn (sent E stmts (srv w)) stmts).
Proof.
  induction stmts as [|s stmts IH]; intros w; cbv zeta; simpl.
  - rewrite app_nil_r. auto.
  - unfold bind. rewrite execute_step.
    destruct (run_stmt E s (srv w)) as [[e|rows] st1]; simpl.
    + auto.
    + match goal with |- context [for_each stmts _ ?w1] =>
        destruct (IH w1) as (H1 & H2 & H3 & H4 & H5)
      end.
      simpl in *. rewrite H1, H2, H3, H4, H5, <- app_assoc.
      repeat split.
Qed.

Lemma provision_spec (schema_name : string) (db : connection) (w : world E) :
  let r := provision schema_name db w in
  let answer := replies E (script schema_name) (srv w) in
  fst r = match fst answer with
          | Some e => Raise e
          | None =>
              match fst (run_commit E (snd answer)) with
              | Some e => Raise e
              | None => Next tt
              end
          end /\
  attempts (snd r) = attempts w /\
  srv (snd r) = match fst answer with
                | Some _ => snd answer
                | None => snd (run_commit E (snd answer))
                end /\
  stdin (snd r) = stdin w /\
  trace (snd r) =
    trace w ++
    map EExecute (firstn (sent E (script schema_name) (srv w)) (script schema_name)) ++
    match fst answer with
    | Some _ => []
    | None => [ECommit db]
    end.
Proof.
  cbv zeta. unfold provision, bind.
  generalize (script schema_name) as stmts. intros stmts.
  destruct (run_script_spec stmts w) as (H1 & H2 & H3 & H4 & H5).
  destruct (for_each _ _ w) as [c w1]. simpl fst in *; simpl snd in *.
  destruct (fst (replies E stmts (srv w))) as [e|] eqn:Hans;
    subst c; simpl.
  - rewrite H5, ?app_nil_r. auto.
  - unfold commit; simpl. rewrite H3.
    destruct (run_commit E _) as [[e|] st2]; simpl;
      rewrite H5, <- app_assoc; auto.
Qed.

(** The existence check, step by step. *)
Lemma check_existing_step (db : connection) (w : world E) :
  check_existing db w =
  let asked := trace w ++ [ECursor db; EExecute (SELECT_SCHEMA_NAME schema)] in
  match run_stmt E (SELECT_SCHEMA_NAME schema) (srv w) with
  | (inl e, st) => (Raise e, World E (attempts w) st [] (stdin w) asked)
  | (inr rows, st) =>
      if truthy (hd_error rows) then
        resolve_conflict
          (World E (attempts w) st (tl rows) (stdin w)
                 (asked ++ [EFetchone; EPrint exists_message]))
      else
        (Next tt, World E (attempts w) st (tl rows) (stdin w)
                        (asked ++ [EFetchone]))
  end.
Proof.
  unfold check_existing, bind, cursor, execute, fetchone, print, ret; simpl.
  destruct (run_stmt E _ (srv w)) as [[e|rows] st]; simpl.
  - rewrite <- app_assoc. reflexivity.
  - destruct rows as [|[|v r] rows]; simpl; unfold log; simpl;
      rewrite <- ?app_assoc; simpl; reflexivity.
Qed.

End ScriptFacts.

(** * Runs of [create_schema] *)

Lemma executed_app (t u : list event) : executed (t ++ u) = executed t ++ executed u.
Proof. unfold executed. now rewrite flat_map_app. Qed.

Lemma executed_map (stmts : list stmt) : executed (map EExecute stmts) = stmts.
Proof.
  induction stmts as [|s stmts IH]; [reflexivity|].
  unfold executed in *; simpl. now rewrite IH.
Qed.

Lemma executed_reprompts (bad : list string) : executed (reprompts bad) = [].
Proof. induction bad as [|l bad IH]; [reflexivity|]. exact IH. Qed.

Lemma created_app (t u : list event) : created (t ++ u) = created t ++ created u.
Proof. unfold created. now rewrite executed_app, flat_map_app. Qed.

Lemma commits_app (t u : list event) : commits (t ++ u) = commits t + commits u.
Proof. unfold commits. now rewrite filter_app, length_app. Qed.

Lemma commits_map_execute (stmts : list stmt) : commits (map EExecute stmts) = 0.
Proof. induction stmts as [|s stmts IH]; [reflexivity|]. exact IH. Qed.

Lemma prologue_reprompts db (bad : list string) :
  Forall (prologue_event db) (reprompts bad).
Proof.
  induction bad as [|l bad IH]; [constructor|].
  unfold reprompts; simpl. repeat constructor. exact IH.
Qed.

#[local] Hint Rewrite executed_app executed_reprompts : trace_rw.
#[local] Hint Resolve prologue_reprompts : trace_db.

Lemma prologue_quiet db (evs : list event) :
  Forall (prologue_event db) evs ->
  commits evs = 0 /\ closes evs = 0 /\ created evs = [] /\
  forall s, In s (executed evs) ->
            s = SELECT_SCHEMA_NAME schema \/ s = DROP_DATABASE schema.
Proof.
  induction 1 as [|ev evs Hev _ (IH1 & IH2 & IH3 & IH4)].
  - repeat split; try reflexivity. intros s [].
  - destruct ev; simpl in Hev; try contradiction;
      unfold commits, closes, created, executed in *; simpl;
      repeat split; auto.
    + destruct Hev as [-> | ->]; simpl; assumption.
    + intros s0 [<- | Hin]; auto.
Qed.

Section RunFacts.

Variable E : Engine.
Variable connector : nat -> connect_reply.

(** The operator's lines are a run of rejected ones, and then the
    terminal is closed, or the answer is no, or the answer is yes. *)
Lemma resolve_conflict_cases (w : world E) :
  exists bad rest,
    stdin w = bad ++ rest /\ Forall rejected bad /\
    ((rest = [] /\
      resolve_conflict w = (Raise EOFError, answered w bad []))
     \/
     (exists a rest', rest = a :: rest' /\ lower a = "n" /\
      resolve_conflict w = (Return_, answered w bad rest'))
     \/
     (exists a rest', rest = a :: rest' /\ lower a = "y" /\
      resolve_conflict w =
      (execute (DROP_DATABASE schema) ;;; print deleted_message)
        (answered w bad rest'))).
Proof.
  destruct (split_at_answer (stdin w)) as (bad & rest & Hin & Hbad & Hrest).
  exists bad, rest. split; [exact Hin|]. split; [exact Hbad|].
  rewrite (resolve_conflict_rejected w rest Hin Hbad).
  destruct Hrest as [-> | (a & rest' & -> & Ha)].
  - left. split; [reflexivity|].
    rewrite resolve_conflict_eof by reflexivity. now rewrite answered_after.
  - right.
    destruct (string_dec (lower a) "n") as [Hn|Hn].
    + left. exists a, rest'. repeat split; auto.
      rewrite (resolve_conflict_n _ (a := a) (rest := rest')) by auto.
      now rewrite answered_after.
    + right. exists a, rest'.
      assert (lower a = "y") as Hy.
      { destruct (string_dec (lower a) "y"); [assumption|].
        exfalso. apply Ha. split; assumption. }
      repeat split; auto.
      rewrite (resolve_conflict_y _ (a := a) (rest := rest')) by auto.
      now rewrite answered_after.
Qed.

Lemma drop_step (w : world E) :
  (execute (DROP_DATABASE schema) ;;; print deleted_message) w =
  match run_stmt E (DROP_DATABASE schema) (srv w) with
  | (inl e, st) =>
      (Raise e, World E (attempts w) st [] (stdin w)
                      (trace w ++ [EExecute (DROP_DATABASE schema)]))
  | (inr rows, st) =>
      (Next tt, World E (attempts w) st rows (stdin w)
                      (trace w ++ [EExecute (DROP_DATABASE schema);
                                   EPrint deleted_message]))
  end.
Proof.
  unfold bind. rewrite execute_step.
  destruct (run_stmt E _ (srv w)) as [[e|rows] st]; [reflexivity|].
  unfold print, log; simpl. rewrite <- app_assoc. reflexivity.
Qed.

(** What the prompt loop adds to the trace. *)
Lemma resolve_conflict_trace (db : connection) (w : world E) :
  let r := resolve_conflict w in
  exists evs,
    trace (snd r) = trace w ++ evs /\
    attempts (snd r) = attempts w /\
    Forall (prologue_event db) evs /\
    (executed evs = [] \/ executed evs = [DROP_DATABASE schema]) /\
    (fst r = Return_ -> executed evs = [] /\ srv (snd r) = srv w) /\
    (fst r = Next tt -> executed evs = [DROP_DATABASE schema]).
Proof.
  cbv zeta.
  destruct (resolve_conflict_cases w)
    as (bad & rest & Hin & Hbad &
        [[-> ->] | [(a & rest' & -> & Ha & ->) | (a & rest' & -> & Ha & ->)]]).
  - exists (reprompts bad ++ [EInput prompt]); simpl. trace_goals.
  - exists (reprompts bad ++ [EInput prompt]); simpl. trace_goals.
  - rewrite drop_step; simpl.
    destruct (run_stmt E _ (srv w)) as [[e|rows] st]; simpl.
    + exists (reprompts bad ++ [EInput prompt; EExecute (DROP_DATABASE schema)]).
      trace_goals.
    + exists (reprompts bad ++ [EInput prompt; EExecute (DROP_DATABASE schema);
                                 EPrint deleted_message]).
      trace_goals.
Qed.

(** What the check phase adds to the trace: the query for the constant
    [schema] first, and at most a DROP of the same name after it. *)
Lemma check_existing_trace (db : connection) (w : world E) :
  let r := check_existing db w in
  exists evs,
    trace (snd r) =
      trace w ++ ECursor db :: EExecute (SELECT_SCHEMA_NAME schema) :: evs /\
    attempts (snd r) = attempts w /\
    Forall (prologue_event db) evs /\
    (executed evs = [] \/ executed evs = [DROP_DATABASE schema]) /\
    (fst r = Return_ ->
     executed evs = [] /\
     srv (snd r) = snd (run_stmt E (SELECT_SCHEMA_NAME schema) (srv w))) /\
    (In (EPrint exists_message) evs <-> found E (srv w) = true).
Proof.
  cbv zeta. rewrite check_existing_step. unfold found. cbv zeta.
  destruct (run_stmt E _ (srv w)) as [[e|rows] st]; simpl.
  - exists []. repeat split; auto; try discriminate.
  - destruct (truthy (hd_error rows)) eqn:Hrow.
    + match goal with |- context [resolve_conflict ?w1] =>
        destruct (resolve_conflict_trace db w1)
          as (evs & Ht & Ha & Hall & Hex & Hret & Hnext)
      end.
      simpl in *.
      exists (EFetchone :: EPrint exists_message :: evs).
      split; [rewrite Ht, <- !app_assoc; reflexivity|].
      split; [exact Ha|].
      split; [repeat constructor; exact Hall|].
      split; [exact Hex|].
      split; [exact Hret|].
      split; [reflexivity | intros _; simpl; auto].
    + exists [EFetchone]; simpl.
      split; [now rewrite <- !app_assoc|].
      split; [reflexivity|].
      split; [repeat constructor|].
      split; [left; reflexivity|].
      split; [discriminate|].
      split; [intros [H|[]]; discriminate | discriminate].
Qed.

End RunFacts.

Section Runs.

Variable E : Engine.
Variable connector : nat -> connect_reply.

(** With a connection [db], a run is the two phases and the close. *)
Lemma create_schema_run schema_name (w w1 : world E) (db : connection) :
  establish connector None w = (Next db, w1) ->
  create_schema connector schema_name w =
  (let (r, w2) := (check_existing db ;;; provision schema_name db) w1 in
   (r, close db w2)).
Proof.
  intros Hopen. rewrite create_schema_phases. unfold connect_to_localhost.
  rewrite Hopen. destruct (bind _ _ w1); reflexivity.
Qed.

Lemma create_schema_unconnected schema_name (w w1 : world E) (e : exn) :
  establish connector None w = (Raise e, w1) ->
  create_schema connector schema_name w = (Raise e, w1).
Proof.
  intros Hopen. rewrite create_schema_phases. unfold connect_to_localhost.
  rewrite Hopen. reflexivity.
Qed.

(** The two phases in a row: the events of the check, then, if the check
    falls through, those of the provisioning. *)
Lemma phases_trace schema_name (db : connection) (w : world E) :
  let r := (check_existing db ;;; provision schema_name db) w in
  let c := check_existing db w in
  exists evs,
    trace (snd c) =
      trace w ++ ECursor db :: EExecute (SELECT_SCHEMA_NAME schema) :: evs /\
    Forall (prologue_event db) evs /\
    (executed evs = [] \/ executed evs = [DROP_DATABASE schema]) /\
    (In (EPrint exists_message) evs <-> found E (srv w) = true) /\
    match fst c with
    | Next _ =>
        let answer := replies E (script schema_name) (srv (snd c)) in
        fst r = match fst answer with
                | Some e => Raise e
                | None =>
                    match fst (run_commit E (snd answer)) with
                    | Some e => Raise e
                    | None => Next tt
                    end
                end /\
        trace (snd r) =
          trace (snd c) ++
          map EExecute (firstn (sent E (script schema_name) (srv (snd c)))
                               (script schema_name)) ++
          match fst answer with
          | Some _ => []
          | None => [ECommit db]
          end
    | Return_ =>
        r = (Return_, snd c) /\ executed evs = [] /\
        srv (snd c) = snd (run_stmt E (SELECT_SCHEMA_NAME schema) (srv w))
    | Raise e => r = (Raise e, snd c)
    end.
Proof.
  cbv zeta.
  destruct (check_existing_trace db w) as (evs & Ht & _ & Hall & Hex & Hret & Hfound).
  exists evs. repeat (split; [assumption|]).
  unfold bind. destruct (check_existing db w) as [[[]| |e] w2]; simpl in *.
  - destruct (provision_spec schema_name db w2) as (H1 & _ & _ & _ & H5).
    split; assumption.
  - destruct Hret as [H1 H2]; auto.
  - reflexivity.
Qed.

End Runs.

(** ** The existence check *)

(** C3: whatever [schema_name] is, the catalog query sent by
    [create_schema] is the one for the module constant [schema]
    ('application_project_gaube'), and whether the operator is told that
    the schema exists is decided by the server's answer to that query
    alone; on the reference server it is decided by the presence of a
    database called [schema]. *)
Theorem existence_check_names_constant (E : Engine)
    (connector : nat -> connect_reply) (schema_name : string)
    (w w1 : world E) (db : connection) :
  establish connector None w = (Next db, w1) ->
  (exists evs,
     trace (snd (create_schema connector schema_name w)) =
       trace w1 ++ ECursor db :: EExecute (SELECT_SCHEMA_NAME schema) :: evs /\
     (In (EPrint exists_message) evs <-> found E (srv w) = true)) /\
  (forall st, found MySQL.engine st = MySQL.has_db schema (MySQL.catalog st)).
Proof.
  intros Hopen. split.
  - rewrite (@create_schema_run E connector schema_name w w1 db Hopen).
    destruct (establish_frame connector None w) as (Hsrv & _).
    rewrite Hopen in Hsrv. simpl in Hsrv. rewrite <- Hsrv.
    destruct (phases_trace schema_name db w1) as (evs & Ht & _ & _ & Hfound & Hrun).
    destruct (bind _ _ w1) as [r w2]. cbn [fst snd] in Hrun. cbv zeta in Hrun.
    destruct (fst (check_existing db w1)) as [[]| |e].
    + destruct Hrun as [_ Hr].
      match type of Hr with _ = _ ++ ?rest =>
        exists (evs ++ rest ++ [EClose db])
      end.
      split.
      * cbn [fst snd trace close log]. rewrite Hr, Ht, <- !app_assoc.
        reflexivity.
      * rewrite <- Hfound, !in_app_iff. split; [|tauto].
        intros [H|[[H|H]|[H|[]]]]; try discriminate; auto.
        -- apply in_map_iff in H as (s & Hs & _). discriminate.
        -- destruct (fst (replies _ _ _));
             [destruct H | destruct H as [H|[]]; discriminate].
    + destruct Hrun as [Hr _]. injection Hr as _ ->.
      exists (evs ++ [EClose db]). cbn [fst snd trace close log].
      rewrite Ht, <- app_assoc. simpl.
      split; [reflexivity|].
      rewrite <- Hfound, in_app_iff. split; [|tauto].
      intros [H|[H|[]]]; [assumption | discriminate].
    + injection Hrun as _ ->.
      exists (evs ++ [EClose db]). cbn [fst snd trace close log].
      rewrite Ht, <- app_assoc. simpl.
      split; [reflexivity|].
      rewrite <- Hfound, in_app_iff. split; [|tauto].
      intros [H|[H|[]]]; [assumption | discriminate].
  - intros st. unfold found; simpl.
    destruct (MySQL.has_db schema (MySQL.catalog st)); reflexivity.
Qed.

Lemma existence_check_names_constant_witness :
  establish (flaky 0) None (fresh [MySQL.Database "other" []] [])
  = (Next (Conn 0), after_attempts (fresh [MySQL.Database "other" []] []) None 1) /\
  exists evs,
    trace (snd (create_schema (flaky 0) "other" (fresh [MySQL.Database "other" []] [])))
    = trace (after_attempts (fresh [MySQL.Database "other" []] []) None 1) ++
      ECursor (Conn 0) :: EExecute (SELECT_SCHEMA_NAME schema) :: evs /\
    (In (EPrint exists_message) evs <->
     found MySQL.engine (srv (fresh [MySQL.Database "other" []] [])) = true).
Proof.
  split; [reflexivity|].
  apply (@existence_check_names_constant MySQL.engine (flaky 0) "other"
           (fresh [MySQL.Database "other" []] [])
           (after_attempts (fresh [MySQL.Database "other" []] []) None 1)
           (Conn 0) eq_refl).
Defined.

(** * Runs in which the schema is found *)

Section AnsweredRuns.

Variable E : Engine.
Variable connector : nat -> connect_reply.

Lemma check_existing_n db (w : world E) st rows bad a rest :
  run_stmt E (SELECT_SCHEMA_NAME schema) (srv w) = (inr rows, st) ->
  truthy (hd_error rows) = true ->
  stdin w = bad ++ a :: rest -> Forall rejected bad -> lower a = "n" ->
  check_existing db w = (Return_, at_answer db w st rows bad rest).
Proof.
  intros Hsel Hrow Hin Hbad Ha.
  rewrite check_existing_step, Hsel, Hrow. cbv zeta.
  match goal with |- resolve_conflict ?w1 = _ =>
    rewrite (@resolve_conflict_rejected E bad w1 (a :: rest) Hin Hbad)
  end.
  rewrite resolve_conflict_n with (a := a) (rest := rest);
    [| reflexivity | exact Ha].
  unfold answered, at_answer; simpl. rewrite <- !app_assoc. reflexivity.
Qed.

Lemma check_existing_y db (w : world E) st rows bad a rest :
  run_stmt E (SELECT_SCHEMA_NAME schema) (srv w) = (inr rows, st) ->
  truthy (hd_error rows) = true ->
  stdin w = bad ++ a :: rest -> Forall rejected bad -> lower a = "y" ->
  check_existing db w =
  (execute (DROP_DATABASE schema) ;;; print deleted_message)
    (at_answer db w st rows bad rest).
Proof.
  intros Hsel Hrow Hin Hbad Ha.
  rewrite check_existing_step, Hsel, Hrow. cbv zeta.
  match goal with |- resolve_conflict ?w1 = _ =>
    rewrite (@resolve_conflict_rejected E bad w1 (a :: rest) Hin Hbad)
  end.
  rewrite resolve_conflict_y with (a := a) (rest := rest);
    [| reflexivity | exact Ha].
  unfold answered, at_answer; simpl. rewrite <- !app_assoc. reflexivity.
Qed.

End AnsweredRuns.

(** * The reference server *)

Section ReferenceServer.

Import MySQL.

Lemma has_db_head s ts cat : has_db s (Database s ts :: cat) = true.
Proof. unfold has_db, named; simpl. now rewrite String.eqb_refl. Qed.

Lemma in_selected_head f s ts cat :
  in_selected f (State (Database s ts :: cat) (Some s)) =
  match f ts with
  | inl e => (inl e, State (Database s ts :: cat) (Some s))
  | inr ts' => (inr [], State (Database s ts' :: cat) (Some s))
  end.
Proof.
  unfold in_selected, find_db, named; simpl. rewrite String.eqb_refl; simpl.
  destruct (f ts); [reflexivity|].
  unfold named; simpl. now rewrite String.eqb_refl.
Qed.

(** On a server without a database [s], every statement of the script is
    accepted and leaves the database [s] with the tables [provisioned]. *)
Lemma script_replies s cat sel :
  has_db s cat = false ->
  replies engine (script s) (State cat sel) =
  (None, State (Database s provisioned :: cat) (Some s)).
Proof.
  intros Hnew. unfold script, replies, engine, run_stmt, run.
  repeat (cbn [catalog selected];
          first
            [ rewrite Hnew
            | rewrite has_db_head
            | rewrite in_selected_head;
              match goal with
              | |- context [create_table ?d ?ts] =>
                  let v := eval vm_compute in (create_table d ts) in
                  change (create_table d ts) with v
              | |- context [insert ?t ?c ?p ?ts] =>
                  let v := eval vm_compute in (insert t c p ts) in
                  change (insert t c p ts) with v
              end ];
          cbv iota beta).
  reflexivity.
Qed.

(** On a server with a database [s], the script stops at its first
    statement. *)
Lemma script_refused s cat sel :
  has_db s cat = true ->
  replies engine (script s) (State cat sel) =
    (Some (err 1007 "Can't create database; database exists"), State cat sel) /\
  sent engine (script s) (State cat sel) = 1.
Proof.
  intros Hold. unfold script, replies, sent, engine, run_stmt, run.
  cbn [catalog selected]. rewrite Hold. split; reflexivity.
Qed.

End ReferenceServer.

(** * The events of a run *)

Lemma connecting_quiet (evs : list event) :
  Forall connecting_event evs ->
  executed evs = [] /\ commits evs = 0 /\ closes evs = 0.
Proof.
  induction 1 as [|ev evs Hev _ (IH1 & IH2 & IH3)]; [repeat split|].
  destruct ev; simpl in Hev; try contradiction;
    unfold executed, commits, closes in *; simpl; auto.
Qed.

Section RunEvents.

Variable E : Engine.
Variable connector : nat -> connect_reply.

Lemma retry_events database handled tries : forall (w : world E),
  exists evs,
    trace (snd (retry connector database handled tries w)) = trace w ++ evs /\
    Forall connecting_event evs.
Proof.
  remember (6 - tries) as d eqn:Hd. revert tries Hd.
  induction d as [d IH] using lt_wf_ind. intros tries Hd w.
  rewrite retry_step.
  destruct (lt_dec 5 tries); simpl.
  - exists []. rewrite app_nil_r. auto.
  - unfold connect; simpl.
    destruct (connector (attempts w)) as [|[m n0 c|]]; simpl.
    + exists [ESleep 60; dial database]. rewrite <- app_assoc.
      split; [reflexivity | repeat constructor].
    + match goal with |- context [retry _ _ _ _ ?w2] =>
        destruct (IH (6 - (tries + 1)) ltac:(lia) (tries + 1) eq_refl w2)
          as (evs & Ht & Hall)
      end.
      exists ([ESleep 60; dial database] ++ evs).
      rewrite Ht; simpl. rewrite <- !app_assoc.
      split; [reflexivity | repeat constructor; exact Hall].
    + exists [ESleep 60; dial database]. rewrite <- app_assoc.
      split; [reflexivity | repeat constructor].
Qed.

Lemma establish_events database (w : world E) :
  exists evs,
    trace (snd (establish connector database w)) = trace w ++ evs /\
    Forall connecting_event evs.
Proof.
  unfold establish, connect.
  destruct (connector (attempts w)) as [|[m n0 c|]]; simpl.
  - exists [dial database]. split; [reflexivity | repeat constructor].
  - match goal with |- context [retry _ ?db ?h ?t ?w2] =>
      destruct (retry_events db h t w2) as (evs & Ht & Hall)
    end.
    exists (dial database :: evs). rewrite Ht; simpl. rewrite <- app_assoc.
    split; [reflexivity | repeat constructor; exact Hall].
  - exists [dial database]. split; [reflexivity | repeat constructor].
Qed.

(** The events of a run, in order: those of connecting, those of the
    check, the statements of the script up to the first one refused, and
    the commit and the close. *)
Lemma create_schema_events schema_name (w : world E) :
  let r := create_schema connector schema_name w in
  exists cevs pevs n tail,
    trace (snd r) =
      trace w ++ cevs ++ pevs ++
      map EExecute (firstn n (script schema_name)) ++ tail /\
    Forall connecting_event cevs /\
    (executed pevs = [] \/
     executed pevs = [SELECT_SCHEMA_NAME schema] \/
     executed pevs = [SELECT_SCHEMA_NAME schema; DROP_DATABASE schema]) /\
    commits pevs = 0 /\ closes pevs = 0 /\
    executed tail = [] /\ commits tail <= 1 /\ closes tail <= 1 /\
    (fst r = Next tt ->
     n = length (script schema_name) /\
     exists db, tail = [ECommit db; EClose db]) /\
    (fst r = Return_ ->
     n = 0 /\ executed pevs = [SELECT_SCHEMA_NAME schema] /\ commits tail = 0).
Proof.
  cbv zeta.
  destruct (establish_events None w) as (cevs & Hc & Hcall).
  destruct (establish_frame connector None w) as (_ & _ & _ & _ & Hnr).
  destruct (establish connector None w) as [[db| |e] w1] eqn:Hopen;
    cbn [fst snd] in *.
  - rewrite (@create_schema_run E connector schema_name w w1 db Hopen).
    destruct (phases_trace schema_name db w1)
      as (pevs & Hp & Hpall & Hpex & _ & Hrun).
    destruct (prologue_quiet Hpall) as (Hpc & Hpcl & _ & _).
    destruct (bind _ _ w1) as [r w2]. cbn [fst snd] in Hrun. cbv zeta in Hrun.
    exists cevs, (ECursor db :: EExecute (SELECT_SCHEMA_NAME schema) :: pevs).
    assert (Hpex' :
      executed (ECursor db :: EExecute (SELECT_SCHEMA_NAME schema) :: pevs) = [] \/
      executed (ECursor db :: EExecute (SELECT_SCHEMA_NAME schema) :: pevs)
        = [SELECT_SCHEMA_NAME schema] \/
      executed (ECursor db :: EExecute (SELECT_SCHEMA_NAME schema) :: pevs)
        = [SELECT_SCHEMA_NAME schema; DROP_DATABASE schema]).
    { change (executed (ECursor db :: EExecute (SELECT_SCHEMA_NAME schema) :: pevs))
        with (SELECT_SCHEMA_NAME schema :: executed pevs).
      destruct Hpex as [-> | ->]; auto. }
    destruct (fst (check_existing db w1)) as [[]| |e].
    + destruct Hrun as [Hv Hr].
      destruct (fst (replies E (script schema_name) (srv (snd (check_existing db w1)))))
        as [e|] eqn:Hans.
      * exists (sent E (script schema_name) (srv (snd (check_existing db w1)))),
               [EClose db].
        cbn [fst snd trace close log]. rewrite Hr, Hp, Hc, app_nil_r, <- !app_assoc.
        repeat split; auto; subst r; discriminate.
      * exists (sent E (script schema_name) (srv (snd (check_existing db w1)))),
               [ECommit db; EClose db].
        cbn [fst snd trace close log]. rewrite Hr, Hp, Hc, <- !app_assoc.
        repeat split; auto;
          try (now apply sent_all); eauto;
          try (subst r; destruct (fst (run_commit _ _)); discriminate).
    + destruct Hrun as (Hr & Hex0 & _). injection Hr as -> ->.
      exists 0, [EClose db].
      cbn [fst snd trace close log firstn map]. rewrite Hp, Hc, <- !app_assoc.
      repeat split; auto; try discriminate.
      change (executed (ECursor db :: EExecute (SELECT_SCHEMA_NAME schema) :: pevs))
        with (SELECT_SCHEMA_NAME schema :: executed pevs).
      now rewrite Hex0.
    + injection Hrun as -> ->.
      exists 0, [EClose db].
      cbn [fst snd trace close log firstn map]. rewrite Hp, Hc, <- !app_assoc.
      repeat split; auto; discriminate.
  - contradiction.
  - rewrite (@create_schema_unconnected E connector schema_name w w1 e Hopen).
    exists cevs, [], 0, []. cbn [fst snd firstn map]. rewrite Hc, !app_nil_r.
    repeat split; auto; discriminate.
Qed.

End RunEvents.

Lemma script_statements_differ (schema_name : string) :
  NoDup ([SELECT_SCHEMA_NAME schema; DROP_DATABASE schema] ++ script schema_name).
Proof.
  unfold script. simpl.
  repeat (constructor; [simpl; intuition discriminate|]).
  constructor.
Qed.

Lemma NoDup_prefix {A} (l : list A) (n : nat) (pre : list A) :
  NoDup (pre ++ l) -> NoDup (pre ++ firstn n l).
Proof.
  intros H. rewrite <- (firstn_skipn n l), app_assoc in H.
  now apply NoDup_app_remove_r in H.
Qed.

(** No statement is sent twice in a run, and at most one commit. *)
Lemma no_statement_twice (E : Engine) (connector : nat -> connect_reply)
    (schema_name : string) (w : world E) :
  exists evs,
    trace (snd (create_schema connector schema_name w)) = trace w ++ evs /\
    NoDup (executed evs) /\ commits evs <= 1.
Proof.
  destruct (create_schema_events connector schema_name w)
    as (cevs & pevs & n & tail & Ht & Hc & Hp & Hpc & _ & Htail & Htc & _).
  destruct (connecting_quiet Hc) as (Hce & Hcc & _).
  eexists. split; [exact Ht|]. split.
  - rewrite !executed_app, Hce, Htail, executed_map, app_nil_r. simpl.
    pose proof (script_statements_differ schema_name) as Hall.
    destruct Hp as [-> | [-> | ->]].
    + apply (NoDup_prefix _ n []).
      now apply (NoDup_app_remove_l [SELECT_SCHEMA_NAME schema; DROP_DATABASE schema]).
    + apply (NoDup_prefix _ n [SELECT_SCHEMA_NAME schema]).
      inversion Hall as [|? ? Hnot Hrest]; subst.
      inversion Hrest as [|? ? Hnot' Hrest']; subst.
      constructor; [|exact Hrest'].
      intros Hin. apply Hnot. now right.
    + now apply (NoDup_prefix _ n [SELECT_SCHEMA_NAME schema; DROP_DATABASE schema]).
  - rewrite !commits_app, commits_map_execute, Hcc, Hpc. lia.
Qed.

(** ** The prompt *)

(** C8: the prompt accepts the four lines y, Y, n and N and no other.  A
    line it does not accept is answered by 'invalid input..' and a new
    prompt and changes nothing else: nothing is dropped, the function
    does not return, no error is raised.  The loop is left by the first
    accepted line only: on y/Y to the DROP, on n/N by [return].  (When
    the terminal is closed before an accepted line comes, it is [input]
    that raises.) *)
Theorem prompt_loops_until_y_or_n (E : Engine) (w : world E) (bad : list string) :
  Forall rejected bad ->
  (forall line, rejected line <-> ~ In line ["y"; "Y"; "n"; "N"]) /\
  (forall a rest,
     stdin w = bad ++ a :: rest -> lower a = "y" ->
     resolve_conflict w =
     (execute (DROP_DATABASE schema) ;;; print deleted_message)
       (answered w bad rest)) /\
  (forall a rest,
     stdin w = bad ++ a :: rest -> lower a = "n" ->
     resolve_conflict w = (Return_, answered w bad rest)) /\
  (stdin w = bad ->
   resolve_conflict w = (Raise EOFError, answered w bad [])).
Proof.
  intros Hbad. split; [|split; [|split]].
  - intros line. unfold rejected. rewrite lower_is_y, lower_is_n. simpl.
    intuition congruence.
  - intros a rest Hin Ha.
    rewrite (@resolve_conflict_rejected E bad w (a :: rest) Hin Hbad).
    rewrite resolve_conflict_y with (a := a) (rest := rest);
      [| reflexivity | exact Ha].
    now rewrite answered_after.
  - intros a rest Hin Ha.
    rewrite (@resolve_conflict_rejected E bad w (a :: rest) Hin Hbad).
    rewrite resolve_conflict_n with (a := a) (rest := rest);
      [| reflexivity | exact Ha].
    now rewrite answered_after.
  - intros Hin. rewrite <- (app_nil_r bad) in Hin.
    rewrite (@resolve_conflict_rejected E bad w [] Hin Hbad).
    rewrite resolve_conflict_eof by reflexivity.
    now rewrite answered_after.
Qed.

Lemma prompt_loops_until_y_or_n_witness :
  Forall rejected ["maybe"; "yes"; " n"] /\
  resolve_conflict (fresh [] ["maybe"; "yes"; " n"; "N"; "y"]) =
  (Return_, answered (fresh [] ["maybe"; "yes"; " n"; "N"; "y"])
                     ["maybe"; "yes"; " n"] ["y"]).
Proof.
  assert (Hbad : Forall rejected ["maybe"; "yes"; " n"]).
  { repeat constructor; intros H; vm_compute in H; discriminate. }
  split; [exact Hbad|].
  apply (proj1 (proj2 (proj2
           (@prompt_loops_until_y_or_n MySQL.engine
              (fresh [] ["maybe"; "yes"; " n"; "N"; "y"])
              ["maybe"; "yes"; " n"] Hbad))) "N" ["y"]);
    reflexivity.
Defined.

(** ** Keeping the existing schema *)

(** C4: when the check finds the schema and the operator answers n or N
    (after any number of rejected lines), [create_schema] returns, and the
    only statement it has sent is the catalog query: no DROP, no CREATE,
    no INSERT, no commit.  On the reference server the state after the run
    is the state before it. *)
Theorem retain_changes_nothing (connector : nat -> connect_reply)
    (schema_name : string) (w w1 : world MySQL.engine) (db : connection)
    (bad : list string) (a : string) (rest : list string) :
  establish connector None w = (Next db, w1) ->
  MySQL.has_db schema (MySQL.catalog (srv w)) = true ->
  stdin w = bad ++ a :: rest -> Forall rejected bad -> lower a = "n" ->
  let r := create_schema connector schema_name w in
  r = (Return_, close db (at_answer db w1 (srv w) [[Str schema]] bad rest)) /\
  srv (snd r) = srv w /\
  (exists evs,
     trace (snd r) = trace w1 ++ evs /\
     executed evs = [SELECT_SCHEMA_NAME schema] /\ commits evs = 0).
Proof.
  intros Hopen Hhas Hin Hbad Ha.
  destruct (establish_frame connector None w) as (Hsrv & Hstdin & _).
  rewrite Hopen in Hsrv, Hstdin. cbn [snd] in Hsrv, Hstdin.
  assert (Hrun : create_schema connector schema_name w =
                 (Return_, close db (at_answer db w1 (srv w) [[Str schema]] bad rest))).
  { rewrite (@create_schema_run MySQL.engine connector schema_name w w1 db Hopen).
    unfold bind.
    rewrite (@check_existing_n MySQL.engine db w1 (srv w) [[Str schema]] bad a rest);
      auto; try congruence.
    rewrite Hsrv. simpl. rewrite Hhas. reflexivity. }
  cbv zeta. rewrite Hrun. split; [reflexivity|]. split; [reflexivity|].
  eexists. split.
  - cbn [snd close at_answer log trace]. rewrite <- !app_assoc. reflexivity.
  - rewrite !executed_app, executed_reprompts.
    unfold commits. rewrite !filter_app, !length_app.
    assert (Hq : length (filter is_commit (reprompts bad)) = 0).
    { destruct (prologue_quiet (prologue_reprompts db bad)) as (Hc & _). exact Hc. }
    rewrite Hq. split; reflexivity.
Qed.

Lemma retain_changes_nothing_witness :
  (establish (flaky 0) None (fresh [MySQL.Database schema provisioned] ["x"; "N"])
   = (Next (Conn 0),
      after_attempts (fresh [MySQL.Database schema provisioned] ["x"; "N"]) None 1) /\
   MySQL.has_db schema [MySQL.Database schema provisioned] = true /\
   Forall rejected ["x"] /\ lower "N" = "n") /\
  srv (snd (create_schema (flaky 0) "study"
              (fresh [MySQL.Database schema provisioned] ["x"; "N"])))
  = MySQL.State [MySQL.Database schema provisioned] None.
Proof.
  assert (Hbad : Forall rejected ["x"]).
  { repeat constructor; intros H; vm_compute in H; discriminate. }
  split; [repeat split; try reflexivity; exact Hbad|].
  apply (@retain_changes_nothing (flaky 0) "study"
           (fresh [MySQL.Database schema provisioned] ["x"; "N"])
           (after_attempts (fresh [MySQL.Database schema provisioned] ["x"; "N"]) None 1)
           (Conn 0) ["x"] "N" [] eq_refl eq_refl eq_refl Hbad eq_refl).
Defined.

(** ** Replacing the existing schema *)

(** C10: when the check finds a schema and the operator answers y or Y,
    the statements sent are the catalog query and the DROP DATABASE, both
    for the constant [schema], and then, if the DROP is accepted, the
    script for [schema_name], which begins with CREATE DATABASE
    [schema_name] and USE [schema_name].  The name dropped is [schema], the
    name created is [schema_name]: they are the same database only when the
    argument is the constant. *)
Theorem replace_drops_constant_creates_parameter (E : Engine)
    (connector : nat -> connect_reply) (schema_name : string)
    (w w1 : world E) (db : connection) (st : server E) (rows : list row)
    (bad : list string) (a : string) (rest : list string) :
  establish connector None w = (Next db, w1) ->
  run_stmt E (SELECT_SCHEMA_NAME schema) (srv w) = (inr rows, st) ->
  truthy (hd_error rows) = true ->
  stdin w = bad ++ a :: rest -> Forall rejected bad -> lower a = "y" ->
  (exists evs,
     trace (snd (create_schema connector schema_name w)) = trace w1 ++ evs /\
     executed evs =
       SELECT_SCHEMA_NAME schema :: DROP_DATABASE schema ::
       match run_stmt E (DROP_DATABASE schema) st with
       | (inl _, _) => []
       | (inr _, st2) => firstn (sent E (script schema_name) st2) (script schema_name)
       end) /\
  (forall st2, 1 <= sent E (script schema_name) st2) /\
  firstn 2 (script schema_name) = [CREATE_DATABASE schema_name; USE schema_name] /\
  (schema_name <> schema ->
   DROP_DATABASE schema <> DROP_DATABASE schema_name /\
   CREATE_DATABASE schema_name <> CREATE_DATABASE schema).
Proof.
  intros Hopen Hsel Hrow Hin Hbad Ha.
  destruct (establish_frame connector None w) as (Hsrv & Hstdin & _).
  rewrite Hopen in Hsrv, Hstdin. cbn [snd] in Hsrv, Hstdin.
  split; [|split; [|split]].
  - rewrite (@create_schema_run E connector schema_name w w1 db Hopen).
    unfold bind.
    rewrite (@check_existing_y E db w1 st rows bad a rest);
      auto; try congruence.
    rewrite drop_step. cbn [srv at_answer].
    destruct (run_stmt E (DROP_DATABASE schema) st) as [[e|rows2] st2].
    + eexists. split.
      * cbn [snd close at_answer log trace]. rewrite <- !app_assoc. reflexivity.
      * rewrite !executed_app, executed_reprompts. reflexivity.
    + match goal with |- context [provision schema_name db ?w3] =>
        destruct (provision_spec schema_name db w3) as (_ & _ & _ & _ & Ht);
        destruct (provision schema_name db w3) as [r w4]
      end.
      cbn [fst snd srv trace at_answer] in Ht. cbv zeta in Ht.
      eexists. split.
      * cbn [snd close log trace]. rewrite Ht, <- !app_assoc. reflexivity.
      * rewrite !executed_app, executed_reprompts, executed_map.
        destruct (fst (replies E (script schema_name) st2));
          cbn; rewrite ?app_nil_r; reflexivity.
  - intros st2. apply sent_positive.
  - reflexivity.
  - intros Hne. split; congruence.
Qed.

Lemma replace_drops_constant_creates_parameter_witness :
  (establish (flaky 0) None (fresh [MySQL.Database schema provisioned] ["x"; "Y"])
   = (Next (Conn 0),
      after_attempts (fresh [MySQL.Database schema provisioned] ["x"; "Y"]) None 1) /\
   Forall rejected ["x"] /\ lower "Y" = "y") /\
  exists evs,
    trace (snd (create_schema (flaky 0) "study"
                  (fresh [MySQL.Database schema provisioned] ["x"; "Y"])))
    = trace (after_attempts (fresh [MySQL.Database schema provisioned] ["x"; "Y"])
                            None 1) ++ evs /\
    executed evs =
      SELECT_SCHEMA_NAME schema :: DROP_DATABASE schema :: script "study".
Proof.
  assert (Hbad : Forall rejected ["x"]).
  { repeat constructor; intros H; vm_compute in H; discriminate. }
  split; [repeat split; try reflexivity; exact Hbad|].
  apply (@replace_drops_constant_creates_parameter MySQL.engine (flaky 0) "study"
           (fresh [MySQL.Database schema provisioned] ["x"; "Y"])
           (after_attempts (fresh [MySQL.Database schema provisioned] ["x"; "Y"]) None 1)
           (Conn 0)
           (MySQL.State [MySQL.Database schema provisioned] None)
           [[Str schema]] ["x"] "Y" []
           eq_refl eq_refl eq_refl eq_refl Hbad eq_refl).
Defined.

(** ** Seed rows *)

(** A run that falls through to the end has connected, passed the check
    and had every statement of the script and the commit accepted. *)
Lemma completed_run (E : Engine) (connector : nat -> connect_reply)
    (schema_name : string) (w : world E) :
  fst (create_schema connector schema_name w) = Next tt ->
  exists db w1 w2,
    establish connector None w = (Next db, w1) /\
    check_existing db w1 = (Next tt, w2) /\
    fst (replies E (script schema_name) (srv w2)) = None /\
    fst (run_commit E (snd (replies E (script schema_name) (srv w2)))) = None /\
    srv (snd (create_schema connector schema_name w)) =
      snd (run_commit E (snd (replies E (script schema_name) (srv w2)))) /\
    trace (snd (create_schema connector schema_name w)) =
      trace w2 ++ map EExecute (script schema_name) ++ [ECommit db; EClose db].
Proof.
  intros Hdone.
  destruct (establish_frame connector None w) as (_ & _ & _ & _ & Hnr).
  destruct (establish connector None w) as [[db| |e] w1] eqn:Hopen;
    cbn [fst] in Hnr.
  - rewrite (@create_schema_run E connector schema_name w w1 db Hopen) in *.
    unfold bind in *.
    destruct (check_existing db w1) as [[[]| |e] w2] eqn:Hcheck;
      try discriminate Hdone.
    destruct (provision_spec schema_name db w2) as (Hv & _ & Hs & _ & Ht).
    destruct (provision schema_name db w2) as [r w3].
    cbn [fst snd] in *. cbv zeta in Hv, Hs, Ht. rewrite Hv in Hdone. clear Hv.
    exists db, w1, w2.
    destruct (fst (replies E (script schema_name) (srv w2))) eqn:Hans;
      [discriminate Hdone|].
    destruct (fst (run_commit E _)) eqn:Hcommit; [discriminate Hdone|].
    repeat split; auto.
    cbn [close log trace]. rewrite Ht, (@sent_all E _ _ Hans), firstn_all.
    rewrite <- !app_assoc. reflexivity.
  - contradiction.
  - rewrite (@create_schema_unconnected E connector schema_name w w1 e Hopen) in Hdone.
    discriminate Hdone.
Qed.



(** ** Order of the tables *)

Lemma created_script_prefix (schema_name : string) (n : nat) :
  exists k, created (map EExecute (firstn n (script schema_name)))
            = firstn k tables_in_order.
Proof.
  unfold created. rewrite executed_map.
  do 14 (destruct n as [|n];
         [ first [ now exists 0 | now exists 1 | now exists 2 | now exists 3
                 | now exists 4 | now exists 5 | now exists 6 ] |]).
  now exists 6.
Qed.

(** In the order of the program text every table comes after the tables
    its foreign keys point to. *)
Lemma targets_come_first (pre post : list table_def) (d : table_def)
    (fk : foreign_key) :
  tables_in_order = pre ++ d :: post ->
  In fk (foreign_keys d) ->
  exists t, In t pre /\ table_name t = ref_table fk.
Proof.
  unfold tables_in_order. intros Hsplit Hfk.
  do 6 (destruct pre as [|? pre];
        [ injection Hsplit as <- <-; simpl in Hfk;
          repeat (destruct Hfk as [<- | Hfk];
                  [ first
                      [ exists dataset; split; [simpl; tauto | reflexivity]
                      | exists exam; split; [simpl; tauto | reflexivity]
                      | exists hrv; split; [simpl; tauto | reflexivity] ] |]);
          contradiction
        | injection Hsplit as <- Hsplit ]).
  destruct pre; discriminate Hsplit.
Qed.

Lemma targets_come_first_prefix (n : nat) (pre post : list table_def)
    (d : table_def) (fk : foreign_key) :
  firstn n tables_in_order = pre ++ d :: post ->
  In fk (foreign_keys d) ->
  exists t, In t pre /\ table_name t = ref_table fk.
Proof.
  intros Hsplit. apply targets_come_first with (post := post ++ skipn n tables_in_order).
  rewrite <- (firstn_skipn n tables_in_order) at 1.
  rewrite Hsplit, <- app_assoc. reflexivity.
Qed.

(** C6: in every run the CREATE TABLE statements sent are an initial part
    of dataset, exam, hrv, inter_beat_interval, master_data,
    window_values, in this order, and all six in a run that goes through.
    The first three have no foreign key; every foreign key of a table sent
    points to a table sent before it. *)
Theorem tables_created_in_dependency_order (E : Engine)
    (connector : nat -> connect_reply) (schema_name : string) (w : world E) :
  let r := create_schema connector schema_name w in
  exists evs,
    trace (snd r) = trace w ++ evs /\
    (exists k, created evs = firstn k tables_in_order) /\
    (fst r = Next tt -> created evs = tables_in_order) /\
    (forall pre d post fk,
       created evs = pre ++ d :: post -> In fk (foreign_keys d) ->
       exists t, In t pre /\ table_name t = ref_table fk) /\
    foreign_keys dataset = [] /\ foreign_keys exam = [] /\ foreign_keys hrv = [].
Proof.
  cbv zeta.
  destruct (create_schema_events connector schema_name w)
    as (cevs & pevs & n & tail & Ht & Hc & Hp & _ & _ & Htail & _ & _ & Hnext & _).
  eexists. split; [exact Ht|].
  assert (Hcreated :
    created (cevs ++ pevs ++ map EExecute (firstn n (script schema_name)) ++ tail)
    = created (map EExecute (firstn n (script schema_name)))).
  { rewrite !created_app.
    destruct (connecting_quiet Hc) as (Hce & _).
    unfold created at 1 2 4. rewrite Hce, Htail.
    destruct Hp as [-> | [-> | ->]]; simpl; now rewrite app_nil_r. }
  rewrite Hcreated.
  destruct (created_script_prefix schema_name n) as (k & Hk).
  split; [eauto|]. split; [|split; [|repeat split]].
  - intros Hdone. destruct (Hnext Hdone) as [-> _].
    rewrite firstn_all. reflexivity.
  - intros pre d post fk Hsplit. rewrite Hk in Hsplit.
    now apply targets_come_first_prefix with (n := k) (post := post).
Qed.

Lemma tables_created_in_dependency_order_witness :
  fst (create_schema (flaky 0) "study" (fresh [] [])) = Next tt /\
  created (trace (snd (create_schema (flaky 0) "study" (fresh [] []))))
  = tables_in_order.
Proof.
  split; [reflexivity|].
  destruct (@tables_created_in_dependency_order MySQL.engine (flaky 0) "study"
              (fresh [] [])) as (evs & Ht & _ & Hall & _).
  rewrite Ht. exact (Hall eq_refl).
Defined.

(** ** The commit *)




(** * Deleting a student on the reference server *)

Section Cascade.

Import MySQL.

Lemma value_eqb_eq (a b : value) : value_eqb a b = true <-> a = b.
Proof.
  destruct a, b; simpl; split; intros H; try discriminate; try reflexivity.
  - apply Z.eqb_eq in H. now subst.
  - injection H as ->. apply Z.eqb_refl.
  - apply String.eqb_eq in H. now subst.
  - injection H as ->. apply String.eqb_refl.
  - apply Z.eqb_eq in H. now subst.
  - injection H as ->. apply Z.eqb_refl.
Qed.

Lemma value_eqb_sym (a b : value) : value_eqb a b = value_eqb b a.
Proof.
  destruct a, b; simpl; try reflexivity;
    first [apply Z.eqb_sym | apply String.eqb_sym].
Qed.

Lemma filter_none {A} (p : A -> bool) (l : list A) :
  filter p l = [] -> filter (fun x => negb (p x)) l = l.
Proof.
  induction l as [|x l IH]; simpl; [reflexivity|].
  destruct (p x); [discriminate|]. intros H. simpl. now rewrite IH.
Qed.

Lemma existsb_filter {A} (p : A -> bool) (l : list A) :
  existsb p l = false -> filter p l = [].
Proof.
  induction l as [|x l IH]; simpl; [reflexivity|].
  destruct (p x); [discriminate|]. exact IH.
Qed.

Lemma replace_same (t : table) (ts : list table) :
  find_table (table_name (def t)) ts = Some t -> replace_table t ts = ts.
Proof.
  unfold find_table. induction ts as [|t0 ts IH]; simpl; [reflexivity|].
  destruct (String.eqb (table_name (def t0)) (table_name (def t))).
  - intros H. injection H as ->. reflexivity.
  - intros H. now rewrite IH.
Qed.

Lemma find_table_name (n : string) (t : table) (ts : list table) :
  find_table n ts = Some t -> table_name (def t) = n.
Proof.
  unfold find_table. intros H. apply find_some in H as [_ H].
  now apply String.eqb_eq in H.
Qed.

(** Deleting from a table no key points to. *)
Lemma delete_where_leaf (depth : nat) (name : string) (doomed : record -> bool)
    (ts : list table) (t : table) :
  find_table name ts = Some t ->
  keys_to name ts = [] ->
  delete_where depth name doomed ts =
  inr (replace_table
         (Table (def t) (next_id t)
                (filter (fun r => negb (doomed r)) (records t))) ts).
Proof.
  intros Hfind Hkeys.
  assert (Hstep : delete_where depth name doomed ts =
    match filter doomed (records t) with
    | [] => inr ts
    | _ :: _ =>
        inr (replace_table
               (Table (def t) (next_id t)
                      (filter (fun r => negb (doomed r)) (records t))) ts)
    end).
  { destruct depth; simpl; rewrite Hfind, Hkeys;
      destruct (filter doomed (records t)); reflexivity. }
  rewrite Hstep. destruct (filter doomed (records t)) eqn:Hnone; [|reflexivity].
  rewrite (filter_none _ _ Hnone). f_equal. symmetry.
  replace (Table (def t) (next_id t) (records t)) with t by now destruct t.
  apply replace_same. now rewrite (find_table_name _ _ Hfind).
Qed.

(** One step of the cascade into a table no key points to. *)
Lemma cascade_leaf (depth : nat) (child : string) (doomed : record -> bool)
    (ts : list table) (c : table) :
  find_table child ts = Some c ->
  keys_to child ts = [] ->
  (if existsb doomed (records c)
   then delete_where depth child doomed ts
   else inr ts) =
  inr (replace_table
         (Table (def c) (next_id c)
                (filter (fun r => negb (doomed r)) (records c))) ts).
Proof.
  intros Hfind Hkeys. destruct (existsb doomed (records c)) eqn:Hany.
  - now apply delete_where_leaf.
  - rewrite (filter_none _ _ (existsb_filter _ _ Hany)). f_equal. symmetry.
    replace (Table (def c) (next_id c) (records c)) with c by now destruct c.
    apply replace_same. now rewrite (find_table_name _ _ Hfind).
Qed.

(** A row references one of the rows with id [sid] when its key is [sid]. *)
Lemma references_student (fk : foreign_key) (sid : Z) (rows : list record)
    (v0 : record) (vs : list record) (r : record) :
  ref_column fk = "id" ->
  filter (fun p => value_eqb (cell "id" p) (Int sid)) rows = v0 :: vs ->
  references fk (v0 :: vs) r = value_eqb (cell (fk_column fk) r) (Int sid).
Proof.
  intros Hcol Hvictims. unfold references. rewrite Hcol.
  assert (Hall : forall p, In p (v0 :: vs) -> cell "id" p = Int sid).
  { intros p Hp. rewrite <- Hvictims in Hp. apply filter_In in Hp as [_ Hp].
    now apply value_eqb_eq. }
  destruct (value_eqb (cell (fk_column fk) r) (Int sid)) eqn:Hr.
  - apply value_eqb_eq in Hr. rewrite Hr. simpl.
    rewrite (Hall v0 (or_introl eq_refl)). simpl. now rewrite Z.eqb_refl.
  - destruct (is_null (cell (fk_column fk) r)); [reflexivity|].
    cbn [negb andb].
    match goal with |- ?e = false => destruct e eqn:Hany; [|reflexivity] end.
    apply existsb_exists in Hany as (p & Hp & Hq).
    rewrite (Hall p Hp), value_eqb_sym in Hq. congruence.
Qed.

End Cascade.

(** ** Cascading deletes *)

(** The keys to [dataset] as the script declares them. *)
Lemma keys_to_dataset (d : table_def) :
  In d [inter_beat_interval; master_data; window_values] ->
  In (ForeignKey "student_id" "dataset" "id" CASCADE) (foreign_keys d) /\
  forall fk, In fk (foreign_keys d) -> ref_table fk = "dataset" ->
             fk = ForeignKey "student_id" "dataset" "id" CASCADE.
Proof.
  intros [<- | [<- | [<- | []]]]; (split; [simpl; auto|]); intros fk Hfk Href;
    simpl in Hfk;
    repeat (destruct Hfk as [<- | Hfk]; [first [reflexivity | discriminate Href]|]);
    contradiction.
Qed.

(** In a database whose tables carry the definitions of the script,
    whatever the rows, deleting the dataset row of a student is accepted
    and removes that row and the rows of the three tables whose
    student_id is the student's id. *)
Lemma cascade_on_script_tables (s : string) (cat : list MySQL.database)
    (ts : list MySQL.table) (sid : Z) :
  map MySQL.def ts = tables_in_order ->
  (exists r, In r (rows_of "dataset" ts) /\ MySQL.cell "id" r = Int sid) ->
  MySQL.run (DELETE_FROM "dataset" sid)
            (MySQL.State (MySQL.Database s ts :: cat) (Some s)) =
  (inr [], MySQL.State (MySQL.Database s (map (purge sid) ts) :: cat) (Some s)).
Proof.
  intros Hshape (victim & Hin & Hid).
  destruct ts as [|[d1 n1 r1] [|[d2 n2 r2] [|[d3 n3 r3] [|[d4 n4 r4]
    [|[d5 n5 r5] [|[d6 n6 r6] [|]]]]]]]; try discriminate Hshape.
  unfold tables_in_order in Hshape. simpl in Hshape.
  injection Hshape as -> -> -> -> -> ->.
  unfold rows_of in Hin. simpl in Hin.
  unfold MySQL.run. rewrite in_selected_head.
  unfold MySQL.delete, MySQL.max_cascade_depth.
  match goal with |- context [MySQL.delete_where _ _ ?p ?l] =>
    set (doomed := p); set (ts := l)
  end.
  assert (Hvictims : exists v0 vs, filter doomed r1 = v0 :: vs).
  { destruct (filter doomed r1) as [|v0 vs] eqn:Hf; [|eauto]. exfalso.
    assert (In victim (filter doomed r1)) as Hv.
    { apply filter_In. split; [exact Hin|]. unfold doomed.
      now apply value_eqb_eq. }
    rewrite Hf in Hv. exact Hv. }
  destruct Hvictims as (v0 & vs & Hvictims).
  assert (Hrun : MySQL.delete_where 15 "dataset" doomed ts =
                 inr (map (purge sid) ts)).
  { change (MySQL.delete_where 15 "dataset" doomed ts) with
      (match filter doomed r1 with
       | [] => inr ts
       | _ :: _ =>
           fold_left
             (fun acc (key : string * foreign_key) =>
                match acc with
                | inl e => inl e
                | inr ts2 =>
                    let (child, fk) := key in
                    match MySQL.find_table child ts2 with
                    | None => inr ts2
                    | Some c =>
                        if existsb (MySQL.references fk (filter doomed r1))
                                   (MySQL.records c)
                        then
                          match fk_on_delete fk with
                          | NO_ACTION =>
                              inl (MySQL.err 1451
                                     "Cannot delete or update a parent row")
                          | CASCADE =>
                              MySQL.delete_where 14 child
                                (MySQL.references fk (filter doomed r1)) ts2
                          end
                        else inr ts2
                    end
                end)
             [("inter_beat_interval", ForeignKey "student_id" "dataset" "id" CASCADE);
              ("master_data", ForeignKey "student_id" "dataset" "id" CASCADE);
              ("window_values", ForeignKey "student_id" "dataset" "id" CASCADE)]
             (inr (MySQL.replace_table
                     (MySQL.Table dataset n1
                        (filter (fun r => negb (doomed r)) r1)) ts))
       end).
    rewrite Hvictims. unfold ts. cbn [fold_left].
    repeat
      (match goal with
       | |- context [MySQL.find_table ?child ?l] =>
           let found := eval cbn in (MySQL.find_table child l) in
           change (MySQL.find_table child l) with found; cbv iota beta
       end;
       cbn [fk_on_delete];
       erewrite cascade_leaf; [| reflexivity | reflexivity];
       cbn [MySQL.replace_table MySQL.def MySQL.next_id MySQL.records
            table_name String.eqb Ascii.eqb Bool.eqb
            dataset exam hrv inter_beat_interval master_data window_values]).
    assert (Href : forall r,
      negb (MySQL.references (ForeignKey "student_id" "dataset" "id" CASCADE)
                             (v0 :: vs) r)
      = negb (MySQL.value_eqb (MySQL.cell "student_id" r) (Int sid))).
    { intros r. f_equal.
      exact (@references_student (ForeignKey "student_id" "dataset" "id" CASCADE)
               sid r1 v0 vs r eq_refl Hvictims). }
    rewrite !(filter_ext _ _ Href). reflexivity. }
  rewrite Hrun. reflexivity.
Qed.

(** The rows [purge] keeps. *)
Lemma purge_keeps (sid : Z) (t : MySQL.table) (r : MySQL.record) :
  In r (MySQL.records (purge sid t)) <->
  In r (MySQL.records t) /\
  forall c, student_column (table_name (MySQL.def t)) = Some c ->
            MySQL.cell c r <> Int sid.
Proof.
  unfold purge.
    destruct (student_column (table_name (MySQL.def t))) as [c|]; simpl.
  + rewrite filter_In. split.
    * intros [Hr Hc]. split; [exact Hr|]. intros c0 Hc0. injection Hc0 as <-.
      intros Heq. apply value_eqb_eq in Heq. rewrite Heq in Hc. discriminate.
    * intros [Hr Hc]. split; [exact Hr|].
      destruct (MySQL.value_eqb (MySQL.cell c r) (Int sid)) eqn:Heq; [|reflexivity].
      apply value_eqb_eq in Heq. exfalso. exact (Hc c eq_refl Heq).
  + split; [intros Hr; split; [exact Hr | discriminate] | tauto].
Qed.

(** C9: a run of [create_schema] that goes through leaves on the reference
    server a database [schema_name], selected, in which each of the three
    tables inter_beat_interval, master_data and window_values has the
    foreign key student_id -> dataset(id) ON DELETE CASCADE and no other
    key to dataset.  Whatever rows are put into the tables of that
    database afterwards (the tables keep their definitions), deleting the
    dataset row of a student is accepted and removes that row and the
    rows of the three tables whose student_id is the student's id, and no
    other row of any table; the other databases are as they were. *)
Theorem deleting_a_student_cascades (connector : nat -> connect_reply)
    (schema_name : string) (w : world MySQL.engine)
    (ts : list MySQL.table) (sid : Z) :
  fst (create_schema connector schema_name w) = Next tt ->
  exists made others,
    srv (snd (create_schema connector schema_name w)) =
      MySQL.State (MySQL.Database schema_name made :: others) (Some schema_name) /\
    (forall t fk,
       In t made ->
       In (table_name (MySQL.def t))
          ["inter_beat_interval"; "master_data"; "window_values"] ->
       In fk (foreign_keys (MySQL.def t)) -> ref_table fk = "dataset" ->
       fk = ForeignKey "student_id" "dataset" "id" CASCADE) /\
    (forall name,
       In name ["inter_beat_interval"; "master_data"; "window_values"] ->
       exists t, In t made /\ table_name (MySQL.def t) = name /\
                 In (ForeignKey "student_id" "dataset" "id" CASCADE)
                    (foreign_keys (MySQL.def t))) /\
    (map MySQL.def ts = map MySQL.def made ->
     (exists r, In r (rows_of "dataset" ts) /\ MySQL.cell "id" r = Int sid) ->
     MySQL.run (DELETE_FROM "dataset" sid)
               (MySQL.State (MySQL.Database schema_name ts :: others)
                            (Some schema_name)) =
     (inr [],
      MySQL.State (MySQL.Database schema_name (map (purge sid) ts) :: others)
                  (Some schema_name)) /\
     forall t r,
       In t ts ->
       (In r (MySQL.records (purge sid t)) <->
        In r (MySQL.records t) /\
        forall c, student_column (table_name (MySQL.def t)) = Some c ->
                  MySQL.cell c r <> Int sid)).
Proof.
  intros Hdone.
  destruct (completed_run connector schema_name w Hdone)
    as (db & w1 & w2 & _ & _ & Hans & _ & Hsrv & _).
  destruct (srv w2) as [cat sel] eqn:Hst.
  destruct (MySQL.has_db schema_name cat) eqn:Hhas.
  { destruct (script_refused schema_name cat sel Hhas) as [Hr _].
    rewrite Hr in Hans. discriminate Hans. }
  rewrite (script_replies schema_name cat sel Hhas) in Hsrv.
  exists provisioned, cat. split; [exact Hsrv|].
  split; [|split].
  - intros t fk Ht Hname Hfk Href.
    assert (Hd : In (MySQL.def t)
                    [inter_beat_interval; master_data; window_values]).
    { destruct Ht as [<- | [<- | [<- | [<- | [<- | [<- | []]]]]]];
        simpl in Hname; simpl; intuition discriminate. }
    exact (proj2 (@keys_to_dataset _ Hd) fk Hfk Href).
  - intros name [<- | [<- | [<- | []]]].
    + exists (MySQL.Table inter_beat_interval 1 []). simpl. auto 10.
    + exists (MySQL.Table master_data 1 []). simpl. auto 10.
    + exists (MySQL.Table window_values 1 []). simpl. auto 10.
  - intros Hshape Hrow. split.
    + exact (@cascade_on_script_tables schema_name cat ts sid Hshape Hrow).
    + intros t r _. apply purge_keeps.
Qed.

Lemma deleting_a_student_cascades_witness :
  fst (create_schema (flaky 0) "study" (fresh [] [])) = Next tt /\
  MySQL.run (DELETE_FROM "dataset" 1)
            (MySQL.State [MySQL.Database "study" students] (Some "study")) =
  (inr [], MySQL.State [MySQL.Database "study" (map (purge 1) students)]
                       (Some "study")).
Proof.
  split; [reflexivity|].
  destruct (@deleting_a_student_cascades (flaky 0) "study" (fresh [] [])
              students 1 eq_refl)
    as (made & others & Hst & _ & _ & Hdel).
  vm_compute in Hst. injection Hst as <- <-.
  apply Hdel; [reflexivity|].
  exists [("id", Int 1); ("student", Str "S1")]. split; [left|]; reflexivity.
Defined.

(** ** The retry bound *)

(** C1, as stated, does not hold.  A connector that fails six times and
    then succeeds is served: the seventh attempt (the sixth retry) is still
    made, although 6 > 5.  And when the manager gives up, the error it
    raises has the refusal of the first attempt as context, not that of
    the last one. *)
Lemma connect_retry_bound_as_stated_fails :
  (fails_then_succeeds (flaky 6) 6 /\ 6 > 5 /\
   fst (connect_to_localhost (flaky 6) None (fun db => ret db) (fresh [] []))
   = Next (Conn 6))
  /\
  (fails_then_succeeds (flaky 7) 7 /\
   fst (connect_to_localhost (flaky 7) None (fun db => ret db) (fresh [] []))
   = Raise (Error "Could not connect to database" (-1) (Some (refusal 0))) /\
   refusal 0 <> refusal 6).
Proof.
  split; split; try apply flaky_fails_then_succeeds.
  - split; [lia | reflexivity].
  - split; [reflexivity | discriminate].
Qed.

(** C1, amended: for every connector that fails the first N attempts and
    succeeds on attempt N+1, the block under [with] is run on the
    connection of attempt N+1 when N <= 5, after N waits of 60 seconds,
    and the connection is closed after it; when N > 6 the block is not
    run, nothing is closed and
    [mysql.connector.Error('Could not connect to database')] is raised:
    a new error, with the refusal of the first attempt as its context.
    (What happens at N = 6, and how many attempts are made before the
    manager gives up, is not part of this statement.)  Nothing else is
    tried again: a run of [create_schema] sends no statement twice and at
    most one commit. *)
Theorem connect_retry_bound (E : Engine) (connector : nat -> connect_reply)
    (N : nat) (database : option string) (A : Type)
    (body : connection -> M E A) (w : world E) :
  attempts w = 0 ->
  fails_then_succeeds connector N ->
  (N <= 5 ->
   connect_to_localhost connector database body w =
   (let (r, w2) := body (Conn N) (after_attempts w database (S N)) in
    (r, close (Conn N) w2)))
  /\
  (6 < N ->
   exists first evs,
     connector 0 = Refused first /\
     fst (connect_to_localhost connector database body w) =
       Raise (Error "Could not connect to database" (-1) (Some first)) /\
     snd (connect_to_localhost connector database body w) =
       snd (establish connector database w) /\
     trace (snd (establish connector database w)) = trace w ++ evs /\
     Forall connecting_event evs /\ closes evs = 0 /\
     srv (snd (establish connector database w)) = srv w /\
     stdin (snd (establish connector database w)) = stdin w)
  /\
  (forall schema_name (w0 : world E),
   exists evs,
     trace (snd (create_schema connector schema_name w0)) = trace w0 ++ evs /\
     NoDup (executed evs) /\ commits evs <= 1).
Proof.
  intros H0 Hplan.
  split; [|split; [|intros; apply no_statement_twice]];
    intros HN; unfold connect_to_localhost.
  - rewrite (@establish_accepted E connector database N w H0 Hplan) by lia.
    destruct (body _ _); reflexivity.
  - destruct Hplan as [Hfail _].
    destruct (Hfail 0) as (m & n0 & c & Hc); [lia|].
    destruct (establish_events connector database w) as (evs & Ht & Hall).
    destruct (establish_frame connector database w) as (Hs & Hi & _).
    destruct (connecting_quiet Hall) as (_ & _ & Hcl).
    exists (Error m n0 c), evs.
    rewrite (@establish_refused E connector database (Error m n0 c) w H0) in *;
      [| intros k Hk; apply Hfail; lia | exact Hc
       | intros k Hk; apply Hfail; lia | exact Hc
       | intros k Hk; apply Hfail; lia | exact Hc
       | intros k Hk; apply Hfail; lia | exact Hc ].
    cbn [fst snd] in *. repeat split; assumption.
Qed.

Lemma connect_retry_bound_witness :
  (attempts (fresh [] []) = 0 /\ fails_then_succeeds (flaky 3) 3) /\
  connect_to_localhost (flaky 3) None (fun db => ret db) (fresh [] []) =
  (Next (Conn 3),
   close (Conn 3) (after_attempts (fresh [] []) None 4)).
Proof.
  assert (Hplan : fails_then_succeeds (flaky 3) 3).
  { split; [|reflexivity].
    intros k Hk. unfold refuses.
    do 3 (destruct k as [|k]; [vm_compute; eauto|]). exfalso; lia. }
  split; [split; [reflexivity | exact Hplan]|].
  apply (proj1 (@connect_retry_bound MySQL.engine (flaky 3) 3 None connection
                  (fun db => ret db) (fresh [] []) eq_refl Hplan)).
  repeat constructor.
Defined.

(** ** Release of the connection *)

(** C2: whichever way the block under [with] is left (it falls through,
    it returns, it raises), [close] is called exactly once, after the
    block, when a connection was opened, and the block's outcome is the
    outcome of the whole statement; when no connection could be opened the
    block is not run and [close] is not called.  (The block itself is
    taken not to close the connection.) *)
Theorem close_exactly_once (E : Engine) (connector : nat -> connect_reply)
    (database : option string) (A : Type)
    (body : connection -> M E A) (w : world E) :
  (forall db w1, closes (trace (snd (body db w1))) = closes (trace w1)) ->
  let opened := establish connector database w in
  let final := connect_to_localhost connector database body w in
  match fst opened with
  | Next db =>
      fst final = fst (body db (snd opened)) /\
      trace (snd final) = trace (snd (body db (snd opened))) ++ [EClose db] /\
      closes (trace (snd final)) = closes (trace w) + 1
  | Raise e =>
      final = (Raise e, snd opened) /\
      closes (trace (snd final)) = closes (trace w)
  | Return_ => False
  end.
Proof.
  intros Hbody opened final. subst opened final. unfold connect_to_localhost.
  destruct (establish_frame connector database w) as (_ & _ & _ & Hc & Hr).
  destruct (establish connector database w) as [[db| |e] w1]; simpl in *.
  - specialize (Hbody db w1). destruct (body db w1) as [r w2]; simpl in *.
    repeat split. unfold closes in *.
    rewrite filter_app, length_app; simpl. lia.
  - congruence.
  - split; [reflexivity | exact Hc].
Qed.

Lemma close_exactly_once_witness :
  (forall (db : connection) (w1 : world MySQL.engine),
     closes (trace (snd (return_ (A := unit) w1))) = closes (trace w1)) /\
  closes (trace (snd (connect_to_localhost (flaky 2) None
                        (fun _ => return_ (A := unit)) (fresh [] [])))) = 1.
Proof.
  split; [reflexivity|].
  apply (@close_exactly_once MySQL.engine (flaky 2) None unit
           (fun _ => return_ (A := unit)) (fresh [] []) (fun _ _ => eq_refl)).
Defined.

(** ** The budget of the loop as written *)

(** The loop of lines 46-60 makes a sixth retry: a connector that fails N
    times and then succeeds is served exactly when N <= 6.  (The docstring
    of line 33 speaks of 5 retries.) *)
Theorem retry_budget_is_six (E : Engine) (connector : nat -> connect_reply)
    (N : nat) (database : option string) (w : world E) :
  attempts w = 0 ->
  fails_then_succeeds connector N ->
  (N <= 6 <-> exists db, fst (establish connector database w) = Next db).
Proof.
  intros H0 Hplan. split.
  - intros HN. exists (Conn N).
    now rewrite (@establish_accepted E connector database N w H0 Hplan HN).
  - intros [db Hdb]. destruct (le_lt_dec N 6) as [HN|HN]; [exact HN|].
    destruct Hplan as [Hfail _].
    destruct (Hfail 0) as (m & n0 & c & Hc); [lia|].
    rewrite (@establish_refused E connector database (Error m n0 c) w H0) in Hdb;
      [discriminate Hdb | intros k Hk; apply Hfail; lia | exact Hc].
Qed.

Lemma retry_budget_is_six_witness :
  (attempts (fresh [] []) = 0 /\ fails_then_succeeds (flaky 6) 6) /\
  exists db, fst (establish (flaky 6) None (fresh [] [])) = Next db.
Proof.
  assert (Hplan : fails_then_succeeds (flaky 6) 6).
  { split; [|reflexivity].
    intros k Hk. unfold refuses.
    do 6 (destruct k as [|k]; [vm_compute; eauto|]). exfalso; lia. }
  split; [split; [reflexivity | exact Hplan]|].
  apply (proj1 (@retry_budget_is_six MySQL.engine (flaky 6) 6 None (fresh [] [])
                  eq_refl Hplan)).
  repeat constructor.
Defined.

(** * Runs on concrete servers *)

(** On the reference server a table cannot be created before the tables
    its foreign keys point to. *)
Example referencing_table_first_is_refused :
  MySQL.create_table inter_beat_interval [] =
    inl (MySQL.err 1824 "Failed to open the referenced table") /\
  MySQL.create_table master_data [MySQL.Table dataset 1 []] =
    inl (MySQL.err 1824 "Failed to open the referenced table") /\
  MySQL.create_table window_values
    [MySQL.Table dataset 1 []; MySQL.Table exam 1 []] =
    inl (MySQL.err 1824 "Failed to open the referenced table").
Proof. vm_compute. repeat split. Qed.

(** The databases 'application_project_gaube' and 'other' exist and
    [create_schema('other')] is answered with Y: the first is dropped, the
    creation of the second is refused, and nothing is committed. *)
Example constant_dropped_parameter_refused :
  let r := create_schema (flaky 0) "other"
             (fresh [MySQL.Database schema provisioned;
                     MySQL.Database "other" []] ["Y"]) in
  fst r = Raise (MySQL.err 1007 "Can't create database; database exists") /\
  MySQL.catalog (srv (snd r)) = [MySQL.Database "other" []] /\
  executed (trace (snd r)) =
    [SELECT_SCHEMA_NAME schema; DROP_DATABASE schema; CREATE_DATABASE "other"] /\
  commits (trace (snd r)) = 0 /\ closes (trace (snd r)) = 1.
Proof. vm_compute. repeat split. Qed.

(** Only the database 'other' exists: [create_schema('other')] does not
    ask and fails on CREATE DATABASE. *)
Example parameter_not_checked :
  let r := create_schema (flaky 0) "other"
             (fresh [MySQL.Database "other" provisioned] ["n"]) in
  fst r = Raise (MySQL.err 1007 "Can't create database; database exists") /\
  stdin (snd r) = ["n"] /\
  executed (trace (snd r)) =
    [SELECT_SCHEMA_NAME schema; CREATE_DATABASE "other"].
Proof. vm_compute. repeat split. Qed.

(** When the inserts are refused the run raises the refusal; the six
    tables have been created, nothing has been committed, the connection
    has been closed. *)
Example denied_insert_is_raised :
  let r := create_schema (E := insert_denied) (flaky 0) "study"
             (World insert_denied 0 (MySQL.State [] None) [] [] []) in
  fst r = Raise (MySQL.err 1142 "INSERT command denied to user") /\
  created (trace (snd r)) = tables_in_order /\
  executed (trace (snd r)) =
    SELECT_SCHEMA_NAME schema :: firstn 9 (script "study") /\
  commits (trace (snd r)) = 0 /\ closes (trace (snd r)) = 1.
Proof. vm_compute. repeat split. Qed.

(** Seven attempts are made before the manager gives up, with 60 seconds
    before each but the first. *)
Example seven_attempts :
  trace (snd (connect_to_localhost (flaky 9) None (fun db => ret db) (fresh [] [])))
  = dial None :: retries None 6.
Proof. reflexivity. Qed.

(** The module run as a script on an empty server. *)
Example main_on_empty_server :
  let r := main (flaky 0) (fresh [] []) in
  fst r = Next tt /\
  MySQL.catalog (srv (snd r)) = [MySQL.Database schema provisioned] /\
  commits (trace (snd r)) = 1 /\ closes (trace (snd r)) = 1.
Proof. vm_compute. repeat split. Qed.

(** * Further properties of the connection manager *)

Lemma connects_app (t u : list event) : connects (t ++ u) = connects t + connects u.
Proof. unfold connects. now rewrite filter_app, length_app. Qed.

Lemma slept_app (t u : list event) : slept (t ++ u) = slept t + slept u.
Proof.
  induction t as [|ev t IH]; [reflexivity|].
  destruct ev; simpl; rewrite IH; lia.
Qed.

Lemma connects_retries database n : connects (retries database n) = n.
Proof.
  induction n as [|n IH]; [reflexivity|].
  rewrite retries_succ, connects_app, IH. reflexivity.
Qed.

Lemma slept_retries database n : slept (retries database n) = 60 * n.
Proof.
  induction n as [|n IH]; [reflexivity|].
  rewrite retries_succ, slept_app, IH.
  change (slept [ESleep 60; dial database]) with 60. lia.
Qed.

Section ConnectionBudget.

Variable E : Engine.
Variable connector : nat -> connect_reply.

(** Each round of the loop sleeps 60 seconds and then connects once;
    entered with [tries], the loop makes at most [6 - tries] rounds and
    touches nothing but the attempt counter and the trace. *)
Lemma retry_rounds database handled tries : forall (w : world E),
  tries <= 6 ->
  exists n,
    n + tries <= 6 /\
    snd (retry connector database handled tries w) =
    World E (attempts w + n) (srv w) (unread w) (stdin w)
          (trace w ++ retries database n).
Proof.
  remember (6 - tries) as d eqn:Hd. revert tries Hd.
  induction d as [d IH] using lt_wf_ind. intros tries Hd w Htries.
  rewrite retry_step.
  destruct (lt_dec 5 tries); simpl.
  - exists 0. split; [lia|].
    destruct w; simpl. apply world_eq; [lia | now rewrite app_nil_r].
  - unfold connect; simpl.
    destruct (connector (attempts w)) as [|[m n0 c|]]; simpl.
    + exists 1. split; [lia|]. unfold log; simpl.
      apply world_eq; [lia | now rewrite <- app_assoc].
    + match goal with |- context [retry _ _ _ _ ?w2] =>
        destruct (IH (6 - (tries + 1)) ltac:(lia) (tries + 1) eq_refl w2
                     ltac:(lia))
          as (k & Hk & Hw)
      end.
      exists (S k). split; [lia|]. rewrite Hw. cbn [trace attempts srv unread stdin log].
      rewrite retries_succ.
      apply world_eq; [lia | now rewrite <- !app_assoc].
    + exists 1. split; [lia|]. unfold log; simpl.
      apply world_eq; [lia | now rewrite <- app_assoc].
Qed.

End ConnectionBudget.

(** Whatever the server answers to each attempt, connecting is one
    attempt followed by at most six rounds of the loop, each round being
    a sleep of 60 seconds and then one attempt, in this order; every
    attempt is for host 'localhost', user 'root', an empty password and
    the database asked for.  So at most seven attempts are made and at
    most 360 seconds are slept, and nothing else is done: the server, the
    input and the rows already fetched are as they were. *)
Theorem connecting_is_bounded (E : Engine) (connector : nat -> connect_reply)
    (database : option string) (w : world E) :
  exists n,
    n <= 6 /\
    snd (establish connector database w) =
      World E (attempts w + S n) (srv w) (unread w) (stdin w)
            (trace w ++ dial database :: retries database n) /\
    connects (dial database :: retries database n) = S n /\
    slept (dial database :: retries database n) = 60 * n.
Proof.
  assert (Hcount : forall n,
            connects (dial database :: retries database n) = S n /\
            slept (dial database :: retries database n) = 60 * n).
  { intros n. split.
    - change (connects (dial database :: retries database n))
        with (S (connects (retries database n))).
      now rewrite connects_retries.
    - change (slept (dial database :: retries database n))
        with (slept (retries database n)).
      apply slept_retries. }
  unfold establish, connect.
  destruct (connector (attempts w)) as [|[m n0 c|]]; simpl.
  - exists 0. split; [lia|]. split; [|apply Hcount].
    unfold log; simpl. apply world_eq; [lia | reflexivity].
  - match goal with |- context [retry _ ?db ?h ?t ?w2] =>
      destruct (retry_rounds connector db h (tries := t) w2 ltac:(lia))
        as (n & Hn & Hw)
    end.
    exists n. split; [lia|]. split; [|apply Hcount].
    rewrite Hw. cbn [trace attempts srv unread stdin log].
    apply world_eq; [lia | now rewrite <- app_assoc].
  - exists 0. split; [lia|]. split; [|apply Hcount].
    unfold log; simpl. apply world_eq; [lia | reflexivity].
Qed.

(** When the server cannot be reached, [create_schema] raises the error of
    the connection manager as it is: no cursor is opened, no statement is
    sent, no line is read, the server is left as it was and nothing is
    closed. *)
Theorem unreachable_server_sends_nothing (E : Engine)
    (connector : nat -> connect_reply) (schema_name : string)
    (first : exn) (w : world E) :
  attempts w = 0 ->
  (forall k, k < 7 -> refuses connector k) ->
  connector 0 = Refused first ->
  create_schema connector schema_name w =
  (Raise (Error "Could not connect to database" (-1) (Some first)),
   after_attempts w None 7) /\
  srv (after_attempts w None 7) = srv w /\
  stdin (after_attempts w None 7) = stdin w /\
  exists evs,
    trace (after_attempts w None 7) = trace w ++ evs /\
    executed evs = [] /\ closes evs = 0.
Proof.
  intros H0 Hfail Hfirst. split; [|split; [reflexivity|split; [reflexivity|]]].
  - apply create_schema_unconnected.
    now apply establish_refused.
  - exists (dial None :: retries None 6).
    split; [reflexivity|]. split; reflexivity.
Qed.

Lemma unreachable_server_sends_nothing_witness :
  (attempts (fresh [] ["y"]) = 0 /\
   (forall k, k < 7 -> refuses (flaky 7) k) /\
   flaky 7 0 = Refused (refusal 0)) /\
  create_schema (flaky 7) "study" (fresh [] ["y"]) =
  (Raise (Error "Could not connect to database" (-1) (Some (refusal 0))),
   after_attempts (fresh [] ["y"]) None 7).
Proof.
  assert (Hfail : forall k, k < 7 -> refuses (flaky 7) k).
  { intros k Hk. unfold refuses.
    do 7 (destruct k as [|k]; [vm_compute; eauto|]). exfalso; lia. }
  split; [repeat split; [exact Hfail]|].
  apply (@unreachable_server_sends_nothing MySQL.engine (flaky 7) "study"
           (refusal 0) (fresh [] ["y"]) eq_refl Hfail eq_refl).
Defined.

(** * Further properties of [create_schema] *)

Section RunSteps.

Variable E : Engine.
Variable connector : nat -> connect_reply.

(** A run whose check falls through ends as its provisioning phase does. *)
Lemma run_after_check schema_name (w w1 w2 : world E) (db : connection) :
  establish connector None w = (Next db, w1) ->
  check_existing db w1 = (Next tt, w2) ->
  create_schema connector schema_name w =
  (fst (provision schema_name db w2), close db (snd (provision schema_name db w2))).
Proof.
  intros Hopen Hcheck.
  rewrite (@create_schema_run E connector schema_name w w1 db Hopen).
  unfold bind. rewrite Hcheck. destruct (provision schema_name db w2); reflexivity.
Qed.

(** A run whose check returns or raises ends there. *)
Lemma run_stopped_in_check schema_name (w w1 w2 : world E) (db : connection)
    (c : ctl unit) :
  establish connector None w = (Next db, w1) ->
  check_existing db w1 = (c, w2) ->
  c <> Next tt ->
  create_schema connector schema_name w = (c, close db w2).
Proof.
  intros Hopen Hcheck Hc.
  rewrite (@create_schema_run E connector schema_name w w1 db Hopen).
  unfold bind. rewrite Hcheck. destruct c as [[]| |e]; [contradiction| |]; reflexivity.
Qed.

Lemma established (w w1 : world E) (db : connection) database :
  establish connector database w = (Next db, w1) ->
  srv w1 = srv w /\ stdin w1 = stdin w /\ unread w1 = unread w.
Proof.
  intros Hopen.
  destruct (establish_frame connector database w) as (Hs & Hi & Hu & _).
  rewrite Hopen in Hs, Hi, Hu. auto.
Qed.

End RunSteps.

Section ReferenceRuns.

Import MySQL.

Lemma has_db_remove_same n cat : has_db n (remove_db n cat) = false.
Proof.
  unfold has_db, remove_db. induction cat as [|d cat IH]; [reflexivity|].
  simpl. destruct (named n d) eqn:Hd; simpl; [exact IH|].
  now rewrite Hd.
Qed.

Lemma has_db_remove_other n m cat :
  n <> m -> has_db n (remove_db m cat) = has_db n cat.
Proof.
  intros Hne. unfold has_db, remove_db.
  induction cat as [|d cat IH]; [reflexivity|].
  simpl. destruct (named m d) eqn:Hd; simpl.
  - rewrite IH. unfold named in *. apply String.eqb_eq in Hd.
    destruct (String.eqb (db_name d) n) eqn:Hn; [|reflexivity].
    apply String.eqb_eq in Hn. congruence.
  - now rewrite IH.
Qed.

(** The check on a server without the database [schema]: one query, then
    on to the provisioning; nothing is printed or read. *)
Lemma check_existing_absent db (w : world engine) :
  has_db schema (catalog (srv w)) = false ->
  check_existing db w =
  (Next tt,
   World engine (attempts w) (srv w) [] (stdin w)
         (trace w ++ [ECursor db; EExecute (SELECT_SCHEMA_NAME schema); EFetchone])).
Proof.
  intros Habs. rewrite check_existing_step. simpl. rewrite Habs. simpl.
  rewrite <- app_assoc. reflexivity.
Qed.

(** The provisioning phase on the reference server. *)
Lemma provision_on_free_name s db (w : world engine) :
  has_db s (catalog (srv w)) = false ->
  fst (provision s db w) = Next tt /\
  srv (snd (provision s db w))
    = State (Database s provisioned :: catalog (srv w)) (Some s) /\
  stdin (snd (provision s db w)) = stdin w /\
  trace (snd (provision s db w))
    = trace w ++ map EExecute (script s) ++ [ECommit db].
Proof.
  intros Hfree.
  destruct (provision_spec s db w) as (Hv & _ & Hs & Hi & Ht).
  cbv zeta in Hv, Hs, Ht. destruct (srv w) as [cat sel] eqn:Hsrv.
  simpl in Hfree.
  change (server engine) with state in *.
  rewrite (script_replies s cat sel Hfree) in Hv, Hs, Ht.
  rewrite (sent_all engine (script s) (State cat sel)) in Ht
    by now rewrite script_replies.
  rewrite firstn_all in Ht. simpl in Hv, Hs. auto.
Qed.

Lemma provision_on_taken_name s db (w : world engine) :
  has_db s (catalog (srv w)) = true ->
  fst (provision s db w)
    = Raise (err 1007 "Can't create database; database exists") /\
  srv (snd (provision s db w)) = srv w /\
  stdin (snd (provision s db w)) = stdin w /\
  trace (snd (provision s db w)) = trace w ++ [EExecute (CREATE_DATABASE s)].
Proof.
  intros Htaken.
  destruct (provision_spec s db w) as (Hv & _ & Hs & Hi & Ht).
  cbv zeta in Hv, Hs, Ht. destruct (srv w) as [cat sel] eqn:Hsrv.
  simpl in Htaken.
  destruct (script_refused s cat sel Htaken) as [Hr Hn].
  change (server engine) with state in *.
  rewrite Hr in Hv, Hs, Ht. rewrite Hn in Ht.
  simpl in Hv, Hs, Ht. rewrite ?app_nil_r in Ht. auto.
Qed.

End ReferenceRuns.

Section ReferenceOutcomes.

Import MySQL.

Variable connector : nat -> connect_reply.

Lemma check_existing_replace db (w : world engine) bad a rest :
  has_db schema (catalog (srv w)) = true ->
  stdin w = bad ++ a :: rest -> Forall rejected bad -> lower a = "y" ->
  check_existing db w = (Next tt, after_drop db w bad rest).
Proof.
  intros Hhas Hin Hbad Ha.
  rewrite (@check_existing_y engine db w (srv w) [[Str schema]] bad a rest);
    auto; [|simpl; now rewrite Hhas].
  rewrite drop_step. cbn [srv at_answer]. simpl run_stmt.
  unfold run. rewrite Hhas.
  unfold after_drop, dropped, at_answer. cbn [attempts stdin trace].
  rewrite <- !app_assoc. reflexivity.
Qed.

(** ** The schema is absent *)

(** When the server has neither a database [schema] nor a database
    [schema_name], the run asks nothing, reads nothing, creates the
    database [schema_name] with the six tables and the five seed rows and
    selects it, commits once and closes; the other databases are as they
    were. *)
Theorem absent_schema_is_provisioned_unasked (schema_name : string)
    (w w1 : world engine) (db : connection) :
  establish connector None w = (Next db, w1) ->
  has_db schema (catalog (srv w)) = false ->
  has_db schema_name (catalog (srv w)) = false ->
  let r := create_schema connector schema_name w in
  fst r = Next tt /\
  srv (snd r)
    = State (Database schema_name provisioned :: catalog (srv w)) (Some schema_name) /\
  stdin (snd r) = stdin w /\
  trace (snd r) =
    trace w1 ++
    [ECursor db; EExecute (SELECT_SCHEMA_NAME schema); EFetchone] ++
    map EExecute (script schema_name) ++ [ECommit db; EClose db].
Proof.
  intros Hopen Habs Hfree. cbv zeta.
  destruct (established connector w None Hopen) as (Hs & Hi & _).
  rewrite <- Hs in Habs, Hfree.
  rewrite (@run_after_check engine connector schema_name w w1 _ db Hopen
             (check_existing_absent db w1 Habs)).
  match goal with |- context [provision schema_name db ?w2] =>
    destruct (provision_on_free_name schema_name db w2 Hfree)
      as (Hv & Hsrv & Hin & Ht)
  end.
  cbn [fst snd close log srv stdin trace] in *.
  rewrite Hv, Hsrv, Hin, Ht, Hs, Hi, <- !app_assoc. repeat split.
Qed.

(** When the server has no database [schema] but has a database
    [schema_name], the run does not ask: CREATE DATABASE is refused with
    error 1007, which is raised; the server is left as it was and no line
    is read. *)
Theorem taken_name_is_refused_unasked (schema_name : string)
    (w w1 : world engine) (db : connection) :
  establish connector None w = (Next db, w1) ->
  has_db schema (catalog (srv w)) = false ->
  has_db schema_name (catalog (srv w)) = true ->
  let r := create_schema connector schema_name w in
  fst r = Raise (err 1007 "Can't create database; database exists") /\
  srv (snd r) = srv w /\
  stdin (snd r) = stdin w /\
  trace (snd r) =
    trace w1 ++
    [ECursor db; EExecute (SELECT_SCHEMA_NAME schema); EFetchone;
     EExecute (CREATE_DATABASE schema_name); EClose db].
Proof.
  intros Hopen Habs Htaken. cbv zeta.
  destruct (established connector w None Hopen) as (Hs & Hi & _).
  rewrite <- Hs in Habs, Htaken.
  rewrite (@run_after_check engine connector schema_name w w1 _ db Hopen
             (check_existing_absent db w1 Habs)).
  match goal with |- context [provision schema_name db ?w2] =>
    destruct (provision_on_taken_name schema_name db w2 Htaken)
      as (Hv & Hsrv & Hin & Ht)
  end.
  cbn [fst snd close log srv stdin trace] in *.
  rewrite Hv, Hsrv, Hin, Ht, Hs, Hi, <- !app_assoc. repeat split.
Qed.

(** ** The schema is present and the answer is yes *)

(** When the database [schema] exists, the operator answers y or Y and,
    once [schema] is dropped, no database is called [schema_name] (as
    when the argument is [schema] itself), the run goes through: the old
    database [schema] is gone with all it held, the database
    [schema_name] is new and holds the seed rows only. *)
Theorem replace_provisions_afresh (schema_name : string)
    (w w1 : world engine) (db : connection)
    (bad : list string) (a : string) (rest : list string) :
  establish connector None w = (Next db, w1) ->
  has_db schema (catalog (srv w)) = true ->
  stdin w = bad ++ a :: rest -> Forall rejected bad -> lower a = "y" ->
  has_db schema_name (remove_db schema (catalog (srv w))) = false ->
  let r := create_schema connector schema_name w in
  fst r = Next tt /\
  srv (snd r)
    = State (Database schema_name provisioned :: remove_db schema (catalog (srv w)))
            (Some schema_name) /\
  has_db schema (remove_db schema (catalog (srv w))) = false /\
  stdin (snd r) = rest.
Proof.
  intros Hopen Hhas Hin Hbad Ha Hfree. cbv zeta.
  destruct (established connector w None Hopen) as (Hs & Hi & _).
  rewrite <- Hs in Hhas, Hfree. rewrite <- Hi in Hin.
  rewrite (@run_after_check engine connector schema_name w w1 _ db Hopen
             (@check_existing_replace db w1 bad a rest Hhas Hin Hbad Ha)).
  destruct (provision_on_free_name schema_name db (after_drop db w1 bad rest) Hfree)
    as (Hv & Hsrv & Hstdin & _).
  cbn [fst snd close log srv stdin] in *.
  rewrite Hv, Hsrv, Hstdin. cbn [after_drop srv dropped catalog stdin].
  rewrite Hs. repeat split. apply has_db_remove_same.
Qed.

(** When the database [schema] exists, the operator answers y or Y and a
    database [schema_name] is left once [schema] is dropped (so the
    argument is another name than [schema]), the run drops [schema] with
    all it holds and then fails: CREATE DATABASE is refused with error
    1007, which is raised.  Nothing has been created in exchange. *)
Theorem replace_can_lose_the_schema (schema_name : string)
    (w w1 : world engine) (db : connection)
    (bad : list string) (a : string) (rest : list string) :
  establish connector None w = (Next db, w1) ->
  has_db schema (catalog (srv w)) = true ->
  stdin w = bad ++ a :: rest -> Forall rejected bad -> lower a = "y" ->
  has_db schema_name (remove_db schema (catalog (srv w))) = true ->
  let r := create_schema connector schema_name w in
  schema_name <> schema /\
  fst r = Raise (err 1007 "Can't create database; database exists") /\
  catalog (srv (snd r)) = remove_db schema (catalog (srv w)) /\
  has_db schema (catalog (srv (snd r))) = false.
Proof.
  intros Hopen Hhas Hin Hbad Ha Htaken. cbv zeta.
  assert (Hne : schema_name <> schema).
  { intros ->. rewrite has_db_remove_same in Htaken. discriminate. }
  destruct (established connector w None Hopen) as (Hs & Hi & _).
  rewrite <- Hs in Hhas, Htaken. rewrite <- Hi in Hin.
  rewrite (@run_after_check engine connector schema_name w w1 _ db Hopen
             (@check_existing_replace db w1 bad a rest Hhas Hin Hbad Ha)).
  destruct (provision_on_taken_name schema_name db (after_drop db w1 bad rest) Htaken)
    as (Hv & Hsrv & _).
  cbn [fst snd close log srv] in *.
  rewrite Hv, Hsrv. cbn [after_drop srv dropped catalog]. rewrite Hs.
  repeat split; auto. apply has_db_remove_same.
Qed.

End ReferenceOutcomes.

Section ReferenceWitnesses.

Import MySQL.

Lemma absent_schema_is_provisioned_unasked_witness :
  (establish (flaky 2) None (fresh [Database "other" students] ["n"])
   = (Next (Conn 2),
      after_attempts (fresh [Database "other" students] ["n"]) None 3) /\
   has_db schema [Database "other" students] = false /\
   has_db "study" [Database "other" students] = false) /\
  srv (snd (create_schema (flaky 2) "study"
              (fresh [Database "other" students] ["n"])))
  = State [Database "study" provisioned; Database "other" students] (Some "study").
Proof.
  split; [repeat split|].
  apply (@absent_schema_is_provisioned_unasked (flaky 2) "study"
           (fresh [Database "other" students] ["n"])
           (after_attempts (fresh [Database "other" students] ["n"]) None 3)
           (Conn 2) eq_refl eq_refl eq_refl).
Defined.

Lemma taken_name_is_refused_unasked_witness :
  (establish (flaky 0) None (fresh [Database "study" students] ["y"])
   = (Next (Conn 0),
      after_attempts (fresh [Database "study" students] ["y"]) None 1) /\
   has_db schema [Database "study" students] = false /\
   has_db "study" [Database "study" students] = true) /\
  fst (create_schema (flaky 0) "study" (fresh [Database "study" students] ["y"]))
  = Raise (err 1007 "Can't create database; database exists").
Proof.
  split; [repeat split|].
  apply (@taken_name_is_refused_unasked (flaky 0) "study"
           (fresh [Database "study" students] ["y"])
           (after_attempts (fresh [Database "study" students] ["y"]) None 1)
           (Conn 0) eq_refl eq_refl eq_refl).
Defined.

Lemma replace_provisions_afresh_witness :
  (establish (flaky 0) None (fresh [Database schema students] ["no"; "y"; "n"])
   = (Next (Conn 0),
      after_attempts (fresh [Database schema students] ["no"; "y"; "n"]) None 1) /\
   has_db schema [Database schema students] = true /\
   Forall rejected ["no"] /\ lower "y" = "y" /\
   has_db schema (remove_db schema [Database schema students]) = false) /\
  srv (snd (create_schema (flaky 0) schema
              (fresh [Database schema students] ["no"; "y"; "n"])))
  = State [Database schema provisioned] (Some schema).
Proof.
  assert (Hbad : Forall rejected ["no"]).
  { repeat constructor; intros H; vm_compute in H; discriminate. }
  split; [repeat split; exact Hbad|].
  apply (@replace_provisions_afresh (flaky 0) schema
           (fresh [Database schema students] ["no"; "y"; "n"])
           (after_attempts (fresh [Database schema students] ["no"; "y"; "n"]) None 1)
           (Conn 0) ["no"] "y" ["n"] eq_refl eq_refl eq_refl Hbad eq_refl eq_refl).
Defined.

Lemma replace_can_lose_the_schema_witness :
  (establish (flaky 0) None
     (fresh [Database schema students; Database "study" []] ["Y"])
   = (Next (Conn 0),
      after_attempts (fresh [Database schema students; Database "study" []] ["Y"])
                     None 1) /\
   has_db schema [Database schema students; Database "study" []] = true /\
   Forall rejected [] /\ lower "Y" = "y" /\
   has_db "study" (remove_db schema [Database schema students; Database "study" []])
   = true) /\
  catalog (srv (snd (create_schema (flaky 0) "study"
                       (fresh [Database schema students; Database "study" []] ["Y"]))))
  = [Database "study" []].
Proof.
  split; [repeat split; constructor|].
  apply (@replace_can_lose_the_schema (flaky 0) "study"
           (fresh [Database schema students; Database "study" []] ["Y"])
           (after_attempts (fresh [Database schema students; Database "study" []] ["Y"])
                           None 1)
           (Conn 0) [] "Y" [] eq_refl eq_refl eq_refl (Forall_nil _) eq_refl eq_refl).
Defined.

End ReferenceWitnesses.

(** * Runs that stop in the check *)

Section CheckStops.

Variable E : Engine.
Variable connector : nat -> connect_reply.

Lemma check_existing_eof db (w : world E) st rows :
  run_stmt E (SELECT_SCHEMA_NAME schema) (srv w) = (inr rows, st) ->
  truthy (hd_error rows) = true ->
  Forall rejected (stdin w) ->
  check_existing db w = (Raise EOFError, at_answer db w st rows (stdin w) []).
Proof.
  intros Hsel Hrow Hbad.
  rewrite check_existing_step, Hsel, Hrow. cbv zeta.
  match goal with |- resolve_conflict ?w1 = _ =>
    rewrite (@resolve_conflict_rejected E (stdin w) w1 [])
  end; [| simpl; now rewrite app_nil_r | exact Hbad].
  rewrite resolve_conflict_eof by reflexivity.
  unfold answered, at_answer; simpl. rewrite <- !app_assoc. reflexivity.
Qed.

(** When the check finds the schema and the terminal is closed before the
    operator gives an accepted answer, every line typed so far is
    answered by 'invalid input..', then [input] raises EOFError, which
    the run raises after closing the connection.  Nothing is dropped and
    nothing is created: the only statement sent is the catalog query. *)
Theorem closed_terminal_drops_nothing (schema_name : string)
    (w w1 : world E) (db : connection) (st : server E) (rows : list row) :
  establish connector None w = (Next db, w1) ->
  run_stmt E (SELECT_SCHEMA_NAME schema) (srv w) = (inr rows, st) ->
  truthy (hd_error rows) = true ->
  Forall rejected (stdin w) ->
  create_schema connector schema_name w =
  (Raise EOFError, close db (at_answer db w1 st rows (stdin w) [])) /\
  executed
    ([ECursor db; EExecute (SELECT_SCHEMA_NAME schema); EFetchone;
      EPrint exists_message] ++ reprompts (stdin w) ++ [EInput prompt; EClose db])
  = [SELECT_SCHEMA_NAME schema].
Proof.
  intros Hopen Hsel Hrow Hbad.
  destruct (established connector w None Hopen) as (Hs & Hi & _).
  split.
  - rewrite <- Hs in Hsel. rewrite <- Hi in Hbad.
    rewrite (@run_stopped_in_check E connector schema_name w w1 _ db _ Hopen
               (check_existing_eof db w1 Hsel Hrow Hbad));
      [now rewrite Hi | discriminate].
  - change (executed ([ECursor db; EExecute (SELECT_SCHEMA_NAME schema); EFetchone;
              EPrint exists_message] ++ reprompts (stdin w) ++ [EInput prompt; EClose db]))
      with (SELECT_SCHEMA_NAME schema ::
            executed (reprompts (stdin w) ++ [EInput prompt; EClose db])).
    now rewrite executed_app, executed_reprompts.
Qed.

(** A refusal by the server during the check is raised as it is, after
    the connection is closed: a refused catalog query ends the run before
    anything is fetched, printed or read; a refused DROP DATABASE ends it
    before the message 'deleted successfully' and before CREATE DATABASE. *)
Theorem refusals_in_the_check_are_raised (schema_name : string)
    (w w1 : world E) (db : connection) :
  establish connector None w = (Next db, w1) ->
  (forall e st,
     run_stmt E (SELECT_SCHEMA_NAME schema) (srv w) = (inl e, st) ->
     create_schema connector schema_name w =
     (Raise e,
      World E (attempts w1) st [] (stdin w)
            (trace w1 ++
             [ECursor db; EExecute (SELECT_SCHEMA_NAME schema); EClose db]))) /\
  (forall rows st bad a rest e st2,
     run_stmt E (SELECT_SCHEMA_NAME schema) (srv w) = (inr rows, st) ->
     truthy (hd_error rows) = true ->
     stdin w = bad ++ a :: rest -> Forall rejected bad -> lower a = "y" ->
     run_stmt E (DROP_DATABASE schema) st = (inl e, st2) ->
     create_schema connector schema_name w =
     (Raise e,
      World E (attempts w1) st2 [] rest
            (trace w1 ++
             [ECursor db; EExecute (SELECT_SCHEMA_NAME schema); EFetchone;
              EPrint exists_message] ++ reprompts bad ++
             [EInput prompt; EExecute (DROP_DATABASE schema); EClose db]))).
Proof.
  intros Hopen.
  destruct (established connector w None Hopen) as (Hs & Hi & _).
  split.
  - intros e st Hsel. rewrite <- Hs in Hsel.
    rewrite (@run_stopped_in_check E connector schema_name w w1
               (World E (attempts w1) st [] (stdin w1)
                      (trace w1 ++ [ECursor db; EExecute (SELECT_SCHEMA_NAME schema)]))
               db (Raise e) Hopen); [| | discriminate].
    + unfold close, log; simpl. rewrite Hi, <- app_assoc. reflexivity.
    + rewrite check_existing_step, Hsel. reflexivity.
  - intros rows st bad a rest e st2 Hsel Hrow Hin Hbad Ha Hdrop.
    rewrite <- Hs in Hsel. rewrite <- Hi in Hin.
    rewrite (@run_stopped_in_check E connector schema_name w w1
               (World E (attempts w1) st2 [] rest
                      (trace (at_answer db w1 st rows bad rest) ++
                       [EExecute (DROP_DATABASE schema)]))
               db (Raise e) Hopen); [| | discriminate].
    + unfold close, log, at_answer; simpl.
      repeat (rewrite <- app_assoc; simpl). reflexivity.
    + rewrite (@check_existing_y E db w1 st rows bad a rest); auto.
      rewrite drop_step. cbn [srv at_answer]. rewrite Hdrop. reflexivity.
Qed.

End CheckStops.

Lemma closed_terminal_drops_nothing_witness :
  (establish (flaky 0) None (fresh [MySQL.Database schema students] ["q"; "yes"])
   = (Next (Conn 0),
      after_attempts (fresh [MySQL.Database schema students] ["q"; "yes"]) None 1) /\
   truthy (hd_error [[Str schema]]) = true /\
   Forall rejected ["q"; "yes"]) /\
  create_schema (flaky 0) "study"
    (fresh [MySQL.Database schema students] ["q"; "yes"]) =
  (Raise EOFError,
   close (Conn 0)
     (at_answer (Conn 0)
        (after_attempts (fresh [MySQL.Database schema students] ["q"; "yes"]) None 1)
        (MySQL.State [MySQL.Database schema students] None)
        [[Str schema]] ["q"; "yes"] [])).
Proof.
  assert (Hbad : Forall rejected ["q"; "yes"]).
  { repeat constructor; intros H; vm_compute in H; discriminate. }
  split; [repeat split; exact Hbad|].
  apply (@closed_terminal_drops_nothing MySQL.engine (flaky 0) "study"
           (fresh [MySQL.Database schema students] ["q"; "yes"])
           (after_attempts (fresh [MySQL.Database schema students] ["q"; "yes"]) None 1)
           (Conn 0) (MySQL.State [MySQL.Database schema students] None)
           [[Str schema]] eq_refl eq_refl eq_refl Hbad).
Defined.

Lemma refusals_in_the_check_are_raised_witness :
  (establish (E := drop_denied) (flaky 0) None
     (World drop_denied 0 (MySQL.State [MySQL.Database schema students] None)
            [] ["y"] [])
   = (Next (Conn 0),
      after_attempts
        (World drop_denied 0 (MySQL.State [MySQL.Database schema students] None)
               [] ["y"] []) None 1)) /\
  fst (create_schema (E := drop_denied) (flaky 0) schema
         (World drop_denied 0 (MySQL.State [MySQL.Database schema students] None)
                [] ["y"] []))
  = Raise (MySQL.err 1044 "Access denied for user to database").
Proof.
  split; [reflexivity|].
  rewrite (proj2 (@refusals_in_the_check_are_raised drop_denied (flaky 0) schema
                    (World drop_denied 0
                       (MySQL.State [MySQL.Database schema students] None)
                       [] ["y"] [])
                    (after_attempts
                       (World drop_denied 0
                          (MySQL.State [MySQL.Database schema students] None)
                          [] ["y"] []) None 1)
                    (Conn 0) eq_refl)
             [[Str schema]] (MySQL.State [MySQL.Database schema students] None)
             [] "y" []
             (MySQL.err 1044 "Access denied for user to database")
             (MySQL.State [MySQL.Database schema students] None)
             eq_refl eq_refl eq_refl (Forall_nil _) eq_refl eq_refl).
  reflexivity.
Defined.

(** * The module run as a script, and run twice *)

Section ScriptRuns.

Import MySQL.

Variable connector : nat -> connect_reply.

(** What the check leaves of the catalog when it falls through: all of
    it, the database [schema] not being there, or all but [schema], which
    has been dropped. *)
Lemma check_existing_falls_through db (w w2 : world engine) :
  check_existing db w = (Next tt, w2) ->
  (has_db schema (catalog (srv w)) = false /\ srv w2 = srv w) \/
  (has_db schema (catalog (srv w)) = true /\ srv w2 = dropped (srv w) /\
   exists evs, trace w2 = trace w ++ evs /\
               In (EExecute (DROP_DATABASE schema)) evs).
Proof.
  destruct (has_db schema (catalog (srv w))) eqn:Hhas.
  - intros Hcheck. right. split; [reflexivity|].
    rewrite check_existing_step in Hcheck. simpl in Hcheck.
    rewrite Hhas in Hcheck. simpl in Hcheck.
    match type of Hcheck with resolve_conflict ?w1 = _ =>
      destruct (resolve_conflict_cases w1)
        as (bad & rest & _ & _ &
            [[_ Hr] | [(a & rest' & _ & _ & Hr) | (a & rest' & _ & _ & Hr)]]);
      rewrite Hr in Hcheck; try discriminate Hcheck
    end.
    rewrite drop_step in Hcheck. simpl in Hcheck. rewrite Hhas in Hcheck.
    injection Hcheck as <-. simpl. split; [reflexivity|].
    eexists. split; [rewrite <- !app_assoc; reflexivity|].
    apply in_or_app. right. apply in_or_app. right.
    apply in_or_app. right. simpl. auto.
  - intros Hcheck. left. split; [reflexivity|].
    rewrite (check_existing_absent db w Hhas) in Hcheck.
    injection Hcheck as <-. reflexivity.
Qed.

(** Run as a script, the module creates the database it checks for, so on
    the reference server no statement is ever refused and, once
    connected, the outcome is decided by the catalog and by what the
    operator types.  When the database [schema] is absent the run goes
    through without reading a line.  When it is there, the first line
    that is y, Y, n or N decides: after y or Y the database is dropped and
    the run goes through; after n or N the run returns and the server is
    as it was; when the input ends before such a line the run raises
    EOFError and the server is as it was.  A run that goes through leaves
    a database [schema] with the six tables and the seed rows only,
    beside the other databases.  The lines after the deciding one are
    left unread. *)
Theorem script_is_never_refused (w w1 : world engine) (db : connection) :
  establish connector None w = (Next db, w1) ->
  let r := main connector w in
  (fst r = Next tt \/ fst r = Return_ \/ fst r = Raise EOFError) /\
  (has_db schema (catalog (srv w)) = false ->
   fst r = Next tt /\ stdin (snd r) = stdin w /\
   srv (snd r) =
     State (Database schema provisioned :: catalog (srv w)) (Some schema)) /\
  (has_db schema (catalog (srv w)) = true ->
   (forall bad a rest,
      stdin w = bad ++ a :: rest -> Forall rejected bad -> lower a = "y" ->
      fst r = Next tt /\ stdin (snd r) = rest /\
      srv (snd r) =
        State (Database schema provisioned :: remove_db schema (catalog (srv w)))
              (Some schema)) /\
   (forall bad a rest,
      stdin w = bad ++ a :: rest -> Forall rejected bad -> lower a = "n" ->
      fst r = Return_ /\ stdin (snd r) = rest /\ srv (snd r) = srv w) /\
   (Forall rejected (stdin w) ->
    fst r = Raise EOFError /\ stdin (snd r) = [] /\ srv (snd r) = srv w)).
Proof.
  intros Hopen. cbv zeta. unfold main.
  destruct (established connector w None Hopen) as (Hs & Hi & _).
  assert (Habsent :
    has_db schema (catalog (srv w)) = false ->
    fst (create_schema connector schema w) = Next tt /\
    stdin (snd (create_schema connector schema w)) = stdin w /\
    srv (snd (create_schema connector schema w)) =
      State (Database schema provisioned :: catalog (srv w)) (Some schema)).
  { intros Hhas. rewrite <- Hs in Hhas.
    rewrite (@run_after_check engine connector schema w w1 _ db Hopen
               (check_existing_absent db w1 Hhas)).
    match goal with |- context [provision schema db ?w2] =>
      destruct (provision_on_free_name schema db w2 Hhas) as (Hv & Hsrv & Hin & _)
    end.
    cbn [fst snd close log srv stdin] in *. rewrite Hv, Hsrv, Hin, Hs, Hi.
    repeat split. }
  assert (Hyes : forall bad a rest,
    has_db schema (catalog (srv w)) = true ->
    stdin w = bad ++ a :: rest -> Forall rejected bad -> lower a = "y" ->
    fst (create_schema connector schema w) = Next tt /\
    stdin (snd (create_schema connector schema w)) = rest /\
    srv (snd (create_schema connector schema w)) =
      State (Database schema provisioned :: remove_db schema (catalog (srv w)))
            (Some schema)).
  { intros bad a rest Hhas Hin Hbad Hy.
    rewrite <- Hs in Hhas. rewrite <- Hi in Hin.
    rewrite (@run_after_check engine connector schema w w1 _ db Hopen
               (@check_existing_replace db w1 bad a rest Hhas Hin Hbad Hy)).
    destruct (provision_on_free_name schema db (after_drop db w1 bad rest)
                (has_db_remove_same schema _))
      as (Hv & Hsrv & Hrest & _).
    cbn [fst snd close log srv stdin] in *. rewrite Hv, Hsrv, Hrest.
    cbn [after_drop srv stdin dropped catalog]. rewrite Hs.
    repeat split. }
  assert (Hno : forall bad a rest,
    has_db schema (catalog (srv w)) = true ->
    stdin w = bad ++ a :: rest -> Forall rejected bad -> lower a = "n" ->
    create_schema connector schema w =
    (Return_, close db (at_answer db w1 (srv w1) [[Str schema]] bad rest))).
  { intros bad a rest Hhas Hin Hbad Hn.
    rewrite <- Hs in Hhas. rewrite <- Hi in Hin.
    apply (@run_stopped_in_check engine connector schema w w1 _ db _ Hopen
             (@check_existing_n engine db w1 (srv w1) [[Str schema]] bad a rest
                ltac:(simpl; now rewrite Hhas) eq_refl Hin Hbad Hn)).
    discriminate. }
  assert (Heof :
    has_db schema (catalog (srv w)) = true ->
    Forall rejected (stdin w) ->
    create_schema connector schema w =
    (Raise EOFError,
     close db (at_answer db w1 (srv w1) [[Str schema]] (stdin w1) []))).
  { intros Hhas Hbad.
    rewrite <- Hs in Hhas. rewrite <- Hi in Hbad.
    apply (@run_stopped_in_check engine connector schema w w1 _ db _ Hopen
             (@check_existing_eof engine db w1 (srv w1) [[Str schema]]
                ltac:(simpl; now rewrite Hhas) eq_refl Hbad)).
    discriminate. }
  split; [|split; [exact Habsent|intros Hhas; split; [|split]]].
  - destruct (has_db schema (catalog (srv w))) eqn:Hhas.
    + destruct (split_at_answer (stdin w)) as (bad & rest & Hin & Hbad & Hrest).
      destruct Hrest as [-> | (a & rest' & -> & Ha)].
      * rewrite app_nil_r in Hin. rewrite <- Hin in Hbad.
        rewrite (Heof eq_refl Hbad). auto.
      * destruct (string_dec (lower a) "n") as [Hn|Hn].
        -- rewrite (Hno bad a rest' eq_refl Hin Hbad Hn). auto.
        -- assert (lower a = "y") as Hy.
           { destruct (string_dec (lower a) "y"); [assumption|].
             exfalso. apply Ha. split; assumption. }
           left. exact (proj1 (Hyes bad a rest' eq_refl Hin Hbad Hy)).
    + left. exact (proj1 (Habsent eq_refl)).
  - intros bad a rest Hin Hbad Hy. exact (Hyes bad a rest Hhas Hin Hbad Hy).
  - intros bad a rest Hin Hbad Hn.
    rewrite (Hno bad a rest Hhas Hin Hbad Hn).
    cbn [fst snd close log srv stdin at_answer]. rewrite Hs. repeat split.
  - intros Hbad. rewrite (Heof Hhas Hbad).
    cbn [fst snd close log srv stdin at_answer]. rewrite Hs. repeat split.
Qed.

(** Provisioning cannot be repeated as it is: after a run of
    [create_schema] that went through, a second run with the same
    argument can go through only by dropping what the first one made,
    that is, only when the argument is [schema] and the operator says
    yes.  With any other argument the second run is refused. *)
Theorem second_run_needs_a_drop (schema_name : string) (w : world engine) :
  fst (create_schema connector schema_name w) = Next tt ->
  let w' := snd (create_schema connector schema_name w) in
  has_db schema_name (catalog (srv w')) = true /\
  (fst (create_schema connector schema_name w') = Next tt ->
   schema_name = schema /\
   exists evs,
     trace (snd (create_schema connector schema_name w')) = trace w' ++ evs /\
     In (EExecute (DROP_DATABASE schema)) evs).
Proof.
  intros Hfirst. cbv zeta.
  assert (Hthere :
    has_db schema_name (catalog (srv (snd (create_schema connector schema_name w))))
    = true).
  { destruct (completed_run connector schema_name w Hfirst)
      as (db & w1 & w2 & _ & _ & Hans & _ & Hsrv & _).
    rewrite Hsrv. destruct (srv w2) as [cat sel] eqn:Hst.
    destruct (has_db schema_name cat) eqn:Hhas.
    - destruct (script_refused schema_name cat sel Hhas) as [Hr _].
      change (server engine) with state in *.
      rewrite Hr in Hans. discriminate Hans.
    - change (server engine) with state in *.
      rewrite (script_replies schema_name cat sel Hhas). simpl.
      apply has_db_head. }
  split; [exact Hthere|].
  set (w' := snd (create_schema connector schema_name w)) in *.
  intros Hsecond.
  destruct (completed_run connector schema_name w' Hsecond)
    as (db & w1 & w2 & Hopen & Hcheck & Hans & _ & _ & Ht).
  destruct (established connector w' None Hopen) as (Hs & _ & _).
  destruct (establish_events connector None w') as (cevs & Hc & _).
  rewrite Hopen in Hc. cbn [snd] in Hc.
  assert (Hfree : has_db schema_name (catalog (srv w2)) = false).
  { destruct (srv w2) as [cat sel] eqn:Hst. simpl.
    destruct (has_db schema_name cat) eqn:Hhas; [|reflexivity].
    destruct (script_refused schema_name cat sel Hhas) as [Hr _].
    change (server engine) with state in *.
    rewrite Hr in Hans. discriminate Hans. }
  destruct (check_existing_falls_through db w1 Hcheck)
    as [[_ Hsame] | (_ & Hdrop & evs & Hevs & Hin)].
  - rewrite Hsame, Hs, Hthere in Hfree. discriminate Hfree.
  - rewrite Hdrop in Hfree. cbn [dropped catalog] in Hfree. rewrite Hs in Hfree.
    split.
    + destruct (string_dec schema_name schema) as [Heq|Hne]; [exact Heq|].
      rewrite (has_db_remove_other _ Hne), Hthere in Hfree. discriminate Hfree.
    + eexists. split.
      * rewrite Ht, Hevs, Hc, <- !app_assoc. reflexivity.
      * apply in_or_app. right. apply in_or_app. now left.
Qed.

End ScriptRuns.

Lemma script_is_never_refused_witness :
  (establish (flaky 0) None (fresh [MySQL.Database schema students] ["maybe"; "Y"; "n"])
   = (Next (Conn 0),
      after_attempts (fresh [MySQL.Database schema students] ["maybe"; "Y"; "n"])
                     None 1) /\
   MySQL.has_db schema [MySQL.Database schema students] = true /\
   Forall rejected ["maybe"] /\ lower "Y" = "y") /\
  fst (main (flaky 0) (fresh [MySQL.Database schema students] ["maybe"; "Y"; "n"]))
  = Next tt /\
  stdin (snd (main (flaky 0)
                (fresh [MySQL.Database schema students] ["maybe"; "Y"; "n"])))
  = ["n"] /\
  srv (snd (main (flaky 0)
              (fresh [MySQL.Database schema students] ["maybe"; "Y"; "n"])))
  = MySQL.State [MySQL.Database schema provisioned] (Some schema).
Proof.
  assert (Hbad : Forall rejected ["maybe"]).
  { constructor; [split; discriminate | constructor]. }
  split; [repeat split; exact Hbad|].
  exact (proj1 (proj2 (proj2
           (@script_is_never_refused (flaky 0)
              (fresh [MySQL.Database schema students] ["maybe"; "Y"; "n"])
              (after_attempts
                 (fresh [MySQL.Database schema students] ["maybe"; "Y"; "n"]) None 1)
              (Conn 0) eq_refl)) eq_refl)
           ["maybe"] "Y" ["n"] eq_refl Hbad eq_refl).
Defined.

Lemma second_run_needs_a_drop_witness :
  fst (create_schema (flaky 0) "study" (fresh [] [])) = Next tt /\
  MySQL.has_db "study"
    (MySQL.catalog (srv (snd (create_schema (flaky 0) "study" (fresh [] [])))))
  = true.
Proof.
  split; [reflexivity|].
  exact (proj1 (@second_run_needs_a_drop (flaky 0) "study" (fresh [] []) eq_refl)).
Defined.

(** * Deleting an exam term on the reference server *)

(** The keys to [exam] are declared without ON DELETE.  In a database
    whose tables carry the definitions of the script, whatever the rows:
    deleting an exam term that a row of inter_beat_interval, master_data
    or window_values refers to by its term_id is refused with error 1451
    and changes nothing; deleting a term no row refers to removes that row
    of [exam] and no other row. *)
Theorem term_in_use_is_kept (s : string) (cat : list MySQL.database)
    (n1 n2 n3 n4 n5 n6 : Z) (r1 r2 r3 r4 r5 r6 : list MySQL.record) (k : Z) :
  let ts := [ MySQL.Table dataset n1 r1; MySQL.Table exam n2 r2;
              MySQL.Table hrv n3 r3; MySQL.Table inter_beat_interval n4 r4;
              MySQL.Table master_data n5 r5; MySQL.Table window_values n6 r6 ] in
  let st := MySQL.State (MySQL.Database s ts :: cat) (Some s) in
  (exists r, In r r2 /\ MySQL.cell "id" r = Int k) ->
  MySQL.run (DELETE_FROM "exam" k) st =
  if existsb (fun r => MySQL.value_eqb (MySQL.cell "term_id" r) (Int k))
             (r4 ++ r5 ++ r6)
  then (inl (MySQL.err 1451 "Cannot delete or update a parent row"), st)
  else
    (inr [],
     MySQL.State
       (MySQL.Database s
          [ MySQL.Table dataset n1 r1;
            MySQL.Table exam n2
              (filter (fun r => negb (MySQL.value_eqb (MySQL.cell "id" r) (Int k))) r2);
            MySQL.Table hrv n3 r3; MySQL.Table inter_beat_interval n4 r4;
            MySQL.Table master_data n5 r5; MySQL.Table window_values n6 r6 ]
        :: cat) (Some s)).
Proof.
  intros ts st (victim & Hin & Hid). subst st.
  unfold MySQL.run. rewrite in_selected_head.
  unfold MySQL.delete, MySQL.max_cascade_depth.
  match goal with |- context [MySQL.delete_where _ _ ?p _] => set (doomed := p) end.
  assert (Hvictims : exists v0 vs, filter doomed r2 = v0 :: vs).
  { destruct (filter doomed r2) as [|v0 vs] eqn:Hf; [|eauto]. exfalso.
    assert (In victim (filter doomed r2)) as Hv.
    { apply filter_In. split; [exact Hin|]. unfold doomed.
      now apply value_eqb_eq. }
    rewrite Hf in Hv. exact Hv. }
  destruct Hvictims as (v0 & vs & Hvictims).
  set (fk := ForeignKey "term_id" "exam" "id" NO_ACTION).
  assert (Href : forall rows,
    existsb (MySQL.references fk (v0 :: vs)) rows
    = existsb (fun r => MySQL.value_eqb (MySQL.cell "term_id" r) (Int k)) rows).
  { intros rows. induction rows as [|r rows IH]; [reflexivity|].
    simpl. rewrite IH. f_equal.
    exact (@references_student fk k r2 v0 vs r eq_refl Hvictims). }
  change (MySQL.delete_where 15 "exam" doomed ts) with
    (match filter doomed r2 with
     | [] => inr ts
     | _ :: _ =>
         fold_left
           (fun acc (key : string * foreign_key) =>
              match acc with
              | inl e => inl e
              | inr ts2 =>
                  let (child, fk0) := key in
                  match MySQL.find_table child ts2 with
                  | None => inr ts2
                  | Some c =>
                      if existsb (MySQL.references fk0 (filter doomed r2))
                                 (MySQL.records c)
                      then
                        match fk_on_delete fk0 with
                        | NO_ACTION =>
                            inl (MySQL.err 1451
                                   "Cannot delete or update a parent row")
                        | CASCADE =>
                            MySQL.delete_where 14 child
                              (MySQL.references fk0 (filter doomed r2)) ts2
                        end
                      else inr ts2
                  end
              end)
           [("inter_beat_interval", fk); ("master_data", fk); ("window_values", fk)]
           (inr (MySQL.replace_table
                   (MySQL.Table exam n2 (filter (fun r => negb (doomed r)) r2)) ts))
     end).
  rewrite Hvictims, !existsb_app. unfold ts. cbn [fold_left].
  repeat
    (match goal with
     | |- context [MySQL.find_table ?child ?l] =>
         let found := eval cbn in (MySQL.find_table child l) in
         change (MySQL.find_table child l) with found; cbv iota beta
     end;
     cbn [fk_on_delete fk MySQL.records]; rewrite Href;
     match goal with
     | |- context [if existsb ?f ?rows then inl _ else inr _] =>
         destruct (existsb f rows); cbn [orb]; [reflexivity|]
     end).
  reflexivity.
Qed.

Lemma term_in_use_is_kept_witness :
  (exists r, In r [ [("id", Int 1); ("term", Str "mid1")];
                    [("id", Int 2); ("term", Str "mid2")];
                    [("id", Int 3); ("term", Str "final")] ] /\
             MySQL.cell "id" r = Int 2) /\
  MySQL.run (DELETE_FROM "exam" 2)
            (MySQL.State [MySQL.Database schema students] (Some schema))
  = (inl (MySQL.err 1451 "Cannot delete or update a parent row"),
     MySQL.State [MySQL.Database schema students] (Some schema)).
Proof.
  assert (Hrow : exists r,
            In r [ [("id", Int 1); ("term", Str "mid1")];
                   [("id", Int 2); ("term", Str "mid2")];
                   [("id", Int 3); ("term", Str "final")] ] /\
            MySQL.cell "id" r = Int 2).
  { exists [("id", Int 2); ("term", Str "mid2")]. split; [right; left|]; reflexivity. }
  split; [exact Hrow|].
  exact (@term_in_use_is_kept schema [] 3 4 3 4 3 1 _ _ _ _ _ _ 2 Hrow).
Defined.

(** * tests/test_student.py: [personal_grades] *)

Section PersonalGrades.

Import TestStudent.

Variable G : Type.

(** The grades returned are those of the student in the first three terms
    of the dict, in the order of the dict; terms after the third are not
    looked at.  Conversely a tuple is returned only when there are at
    least three terms and the student has a grade in each of the first
    three. *)
Theorem personal_grades_are_the_first_three (all_grades : dict (dict G))
    (student_id : string) (g0 g1 g2 : G) :
  NoDup (keys all_grades) ->
  (personal_grades all_grades student_id = inr (g0, g1, g2) <->
   exists t0 d0 t1 d1 t2 d2 more,
     all_grades = (t0, d0) :: (t1, d1) :: (t2, d2) :: more /\
     get d0 student_id = inr g0 /\
     get d1 student_id = inr g1 /\
     get d2 student_id = inr g2).
Proof.
  intros Hkeys. split.
  - destruct all_grades as [|[t0 d0] [|[t1 d1] [|[t2 d2] more]]];
      unfold personal_grades, grade_in_term, keys, item; simpl;
      try discriminate.
    + rewrite String.eqb_refl; simpl.
      destruct (get d0 student_id); simpl; discriminate.
    + inversion Hkeys as [|? ? Hn0 Hk1]; subst.
      assert (t0 <> t1) as H01 by (intros ->; apply Hn0; simpl; auto).
      apply String.eqb_neq in H01.
      rewrite !String.eqb_refl, H01; simpl.
      destruct (get d0 student_id); simpl; [discriminate|].
      destruct (get d1 student_id); simpl; discriminate.
    + inversion Hkeys as [|? ? Hn0 Hk1]; subst.
      inversion Hk1 as [|? ? Hn1 Hk2]; subst.
      assert (t0 <> t1) as H01 by (intros ->; apply Hn0; simpl; auto).
      assert (t0 <> t2) as H02 by (intros ->; apply Hn0; simpl; auto).
      assert (t1 <> t2) as H12 by (intros ->; apply Hn1; simpl; auto).
      apply String.eqb_neq in H01, H02, H12.
      rewrite !String.eqb_refl, H01, H02, H12; simpl.
      destruct (get d0 student_id) as [|a0] eqn:E0; simpl; [discriminate|].
      destruct (get d1 student_id) as [|a1] eqn:E1; simpl; [discriminate|].
      destruct (get d2 student_id) as [|a2] eqn:E2; simpl; [discriminate|].
      intros H. injection H as -> -> ->.
      exists t0, d0, t1, d1, t2, d2, more. auto.
  - intros (t0 & d0 & t1 & d1 & t2 & d2 & more & -> & H0 & H1 & H2).
    inversion Hkeys as [|? ? Hn0 Hk1]; subst.
    inversion Hk1 as [|? ? Hn1 Hk2]; subst.
    assert (t0 <> t1) as H01 by (intros ->; apply Hn0; simpl; auto).
    assert (t0 <> t2) as H02 by (intros ->; apply Hn0; simpl; auto).
    assert (t1 <> t2) as H12 by (intros ->; apply Hn1; simpl; auto).
    apply String.eqb_neq in H01, H02, H12.
    unfold personal_grades, grade_in_term, keys, item; simpl.
    rewrite !String.eqb_refl, H01, H02, H12; simpl.
    rewrite H0, H1, H2. reflexivity.
Qed.

(** How [personal_grades] fails.  KeyError is raised for the student's id
    and no other key, when one of the first three terms has no grade for
    the student; IndexError is raised when there are fewer than three
    terms and the student has a grade in every one of them.  A term
    without the student is thus reported before a missing term. *)
Theorem personal_grades_failures (all_grades : dict (dict G))
    (student_id : string) :
  NoDup (keys all_grades) ->
  match personal_grades all_grades student_id with
  | inr _ => 3 <= length all_grades
  | inl IndexError =>
      length all_grades < 3 /\
      forall t d, In (t, d) all_grades -> exists g, get d student_id = inr g
  | inl (KeyError key) =>
      key = student_id /\
      exists t d, In (t, d) (firstn 3 all_grades) /\
                  get d student_id = inl (KeyError student_id)
  end.
Proof.
  assert (Hget : forall (d : dict G) e,
            get d student_id = inl e -> e = KeyError student_id).
  { intros d. induction d as [|[k0 v] d IH]; simpl; intros e.
    - intros H. injection H as <-. reflexivity.
    - destruct (String.eqb k0 student_id); [discriminate | apply IH]. }
  intros Hkeys.
  destruct all_grades as [|[t0 d0] [|[t1 d1] [|[t2 d2] more]]];
    unfold personal_grades, grade_in_term, keys, item; simpl.
  - split; [lia | intros t d []].
  - rewrite String.eqb_refl; simpl.
    destruct (get d0 student_id) as [e|a0] eqn:H0; simpl.
    + pose proof (Hget _ _ H0); subst e. split; [reflexivity|].
      exists t0, d0. simpl; auto 6.
    + split; [lia|]. intros t d [H|[]]. injection H as <- <-. eauto.
  - inversion Hkeys as [|? ? Hn0 Hk1]; subst.
    assert (t0 <> t1) as H01 by (intros ->; apply Hn0; simpl; auto).
    apply String.eqb_neq in H01.
    rewrite !String.eqb_refl, H01; simpl.
    destruct (get d0 student_id) as [e|a0] eqn:H0; simpl.
    + pose proof (Hget _ _ H0); subst e. split; [reflexivity|].
      exists t0, d0. simpl; auto 6.
    + destruct (get d1 student_id) as [e|a1] eqn:H1; simpl.
      * pose proof (Hget _ _ H1); subst e. split; [reflexivity|].
        exists t1, d1. simpl; auto 6.
      * split; [lia|]. intros t d [H|[H|[]]]; injection H as <- <-; eauto.
  - inversion Hkeys as [|? ? Hn0 Hk1]; subst.
    inversion Hk1 as [|? ? Hn1 Hk2]; subst.
    assert (t0 <> t1) as H01 by (intros ->; apply Hn0; simpl; auto).
    assert (t0 <> t2) as H02 by (intros ->; apply Hn0; simpl; auto).
    assert (t1 <> t2) as H12 by (intros ->; apply Hn1; simpl; auto).
    apply String.eqb_neq in H01, H02, H12.
    rewrite !String.eqb_refl, H01, H02, H12; simpl.
    destruct (get d0 student_id) as [e|a0] eqn:H0; simpl.
    + pose proof (Hget _ _ H0); subst e. split; [reflexivity|].
      exists t0, d0. simpl; auto 6.
    + destruct (get d1 student_id) as [e|a1] eqn:H1; simpl.
      * pose proof (Hget _ _ H1); subst e. split; [reflexivity|].
        exists t1, d1. simpl; auto 6.
      * destruct (get d2 student_id) as [e|a2] eqn:H2; simpl.
        -- pose proof (Hget _ _ H2); subst e. split; [reflexivity|].
           exists t2, d2. simpl; auto 6.
        -- lia.
Qed.

End PersonalGrades.

Lemma personal_grades_are_the_first_three_witness :
  NoDup (TestStudent.keys TestStudent.sample) /\
  TestStudent.personal_grades TestStudent.sample "S1" = inr (78, 82, 182)%Z.
Proof.
  assert (Hkeys : NoDup (TestStudent.keys TestStudent.sample)).
  { repeat constructor; simpl; intuition discriminate. }
  split; [exact Hkeys|].
  apply (proj2 (@personal_grades_are_the_first_three Z TestStudent.sample "S1"
                  78%Z 82%Z 182%Z Hkeys)).
  repeat eexists.
Defined.

Lemma personal_grades_failures_witness :
  NoDup (TestStudent.keys TestStudent.sample) /\
  TestStudent.personal_grades TestStudent.sample "S5"
  = inl (TestStudent.KeyError "S5").
Proof.
  assert (Hkeys : NoDup (TestStudent.keys TestStudent.sample)).
  { repeat constructor; simpl; intuition discriminate. }
  split; [exact Hkeys|].
  pose proof (@personal_grades_failures Z TestStudent.sample "S5" Hkeys) as H.
  destruct (TestStudent.personal_grades TestStudent.sample "S5") as [[|key]|g] eqn:Hr.
  - destruct H as [H _]. vm_compute in H. exfalso. lia.
  - destruct H as [-> _]. reflexivity.
  - vm_compute in Hr. discriminate Hr.
Defined.
